(** * Advertisement service: authentication, accounts and listings

    A shallow embedding of the service's Python sources ([auth.py],
    [crud.py], [models.py], [schemas.py], [main.py]) and the properties
    its specification states about them.

    Conventions of the embedding
    - a Python [str] is the list of its code points, [bytes] the list of
      its byte values (both [list N]);
    - a function that can raise returns an [outcome]; [try]/[except]
      becomes a match on the raised exception's class;
    - the clock ([datetime.utcnow()], the store's [now()]) and the salt of
      [bcrypt.gensalt()] are explicit arguments;
    - the store is a record of two tables, each a list of rows in storage
      order; a handler maps a store to a result and a store;
    - the third-party primitives the code calls (bcrypt, the JWS
      signature of python-jose) are operations of a class, with their
      contracts stated as a second class; the validation of the claims
      of a token, which decides what [verify_token] returns and raises,
      is written out. *)

From Stdlib Require Import ZArith NArith List String Ascii Bool Lia.
From Stdlib Require Import Floats.PrimFloat Floats.SpecFloat.
From stdpp Require Import base option list gmap.

Import ListNotations.

(** ** Exceptions and results *)

Inductive exn : Type :=
| UnicodeEncodeError
| UnicodeDecodeError
| AttributeError
| KeyError
| IntegrityError
| ValueError
| TypeError
| OverflowError
| JWTError
| ExpiredSignatureError
| JWTClaimsError
| ResponseValidationError
| HTTPException (status_code : Z) (detail : string).

(** [isinstance(e, JWTError)]: python-jose derives [ExpiredSignatureError]
    and [JWTClaimsError] from [JWTError]. *)
Definition is_JWTError (e : exn) : bool :=
  match e with
  | JWTError | ExpiredSignatureError | JWTClaimsError => true
  | _ => false
  end.

Inductive outcome (A : Type) : Type :=
| Return (a : A)
| Raise (e : exn).

Arguments Return {A} a.
Arguments Raise {A} e.

#[global] Instance outcome_ret : MRet outcome := fun A a => Return a.
#[global] Instance outcome_bind : MBind outcome := fun A B f m =>
  match m with
  | Return a => f a
  | Raise e => Raise e
  end.
#[global] Instance outcome_fmap : FMap outcome := fun A B f m =>
  match m with
  | Return a => Return (f a)
  | Raise e => Raise e
  end.

(** ** Python strings and bytes *)

Module Py.

Local Open Scope N_scope.

Abbreviation str := (list N) (only parsing).
Abbreviation bytes := (list N) (only parsing).

(** A string literal of the source, as the list of its code points. *)
Definition lit (s : string) : str :=
  List.map N_of_ascii (list_ascii_of_string s).

(** [bool(s)]: a string is truthy when it is not empty. *)
Definition truthy (s : str) : bool :=
  match s with
  | [] => false
  | _ :: _ => true
  end.

(** *** [str.encode('utf-8')] *)

Definition is_surrogate (c : N) : bool := (0xD800 <=? c) && (c <=? 0xDFFF).

(** A code point [encode] accepts: a Unicode scalar value. *)
Definition is_scalar (c : N) : bool := (c <? 0x110000) && negb (is_surrogate c).

Definition cont (c : N) (shift : N) : N :=
  N.lor 0x80 (N.land (N.shiftr c shift) 0x3F).

Definition encode_char (c : N) : outcome bytes :=
  if c <? 0x80 then Return [c]
  else if c <? 0x800 then Return [N.lor 0xC0 (N.shiftr c 6); cont c 0]
  else if c <? 0x10000 then
    if is_surrogate c then Raise UnicodeEncodeError
    else Return [N.lor 0xE0 (N.shiftr c 12); cont c 6; cont c 0]
  else if c <? 0x110000 then
    Return [N.lor 0xF0 (N.shiftr c 18); cont c 12; cont c 6; cont c 0]
  else Raise UnicodeEncodeError.

Fixpoint encode (s : str) : outcome bytes :=
  match s with
  | [] => Return []
  | c :: r =>
      b ← encode_char c;
      bs ← encode r;
      Return (b ++ bs)
  end.

(** *** [bytes.decode('utf-8')] *)

Definition is_cont (b : N) : bool := (0x80 <=? b) && (b <=? 0xBF).

Definition low6 (b : N) : N := N.land b 0x3F.

Definition decode2 (b0 b1 : N) : option N :=
  if (0xC0 <=? b0) && (b0 <=? 0xDF) && is_cont b1 then
    let c := N.lor (N.shiftl (N.land b0 0x1F) 6) (low6 b1) in
    if 0x80 <=? c then Some c else None
  else None.

Definition decode3 (b0 b1 b2 : N) : option N :=
  if (0xE0 <=? b0) && (b0 <=? 0xEF) && is_cont b1 && is_cont b2 then
    let c := N.lor (N.shiftl (N.land b0 0x0F) 12)
                   (N.lor (N.shiftl (low6 b1) 6) (low6 b2)) in
    if (0x800 <=? c) && negb (is_surrogate c) then Some c else None
  else None.

Definition decode4 (b0 b1 b2 b3 : N) : option N :=
  if (0xF0 <=? b0) && (b0 <=? 0xF7) && is_cont b1 && is_cont b2 && is_cont b3 then
    let c := N.lor (N.shiftl (N.land b0 0x07) 18)
                   (N.lor (N.shiftl (low6 b1) 12)
                          (N.lor (N.shiftl (low6 b2) 6) (low6 b3))) in
    if (0x10000 <=? c) && (c <? 0x110000) then Some c else None
  else None.

Fixpoint decode (bs : bytes) : outcome str :=
  match bs with
  | [] => Return []
  | b0 :: r0 =>
      if b0 <? 0x80 then cons b0 <$> decode r0
      else
        match r0 with
        | [] => Raise UnicodeDecodeError
        | b1 :: r1 =>
            match decode2 b0 b1 with
            | Some c => cons c <$> decode r1
            | None =>
                match r1 with
                | [] => Raise UnicodeDecodeError
                | b2 :: r2 =>
                    match decode3 b0 b1 b2 with
                    | Some c => cons c <$> decode r2
                    | None =>
                        match r2 with
                        | [] => Raise UnicodeDecodeError
                        | b3 :: r3 =>
                            match decode4 b0 b1 b2 b3 with
                            | Some c => cons c <$> decode r3
                            | None => Raise UnicodeDecodeError
                            end
                        end
                    end
                end
            end
        end
  end.

(** *** [str.split()] and [str.lower()] *)

(** [c.isspace()]: the code points Python's [split()] separates on. *)
Definition isspace (c : N) : bool :=
  ((0x09 <=? c) && (c <=? 0x0D)) || ((0x1C <=? c) && (c <=? 0x20))
  || (c =? 0x85) || (c =? 0xA0) || (c =? 0x1680)
  || ((0x2000 <=? c) && (c <=? 0x200A))
  || (c =? 0x2028) || (c =? 0x2029) || (c =? 0x202F) || (c =? 0x205F)
  || (c =? 0x3000).

(** The words of [s] after the word [cur] that is being read. *)
Fixpoint split_from (cur : str) (s : str) : list str :=
  match s with
  | [] => if truthy cur then [cur] else []
  | c :: r =>
      if isspace c then
        if truthy cur then cur :: split_from [] r else split_from [] r
      else split_from (cur ++ [c]) r
  end.

(** [s.split()]: the maximal runs of characters that are not whitespace. *)
Definition split (s : str) : list str := split_from [] s.

(** [c.lower()] on the code points a header can hold (the server decodes
    header bytes as Latin-1): the ASCII capitals and the Latin-1 capitals
    other than the multiplication sign move up by 32. The service
    lower-cases one word only, to compare it with "bearer", and no code
    point beyond Latin-1 lower-cases into a letter of that word. *)
Definition lower_char (c : N) : N :=
  if (0x41 <=? c) && (c <=? 0x5A) then c + 32
  else if (0xC0 <=? c) && (c <=? 0xDE) && negb (c =? 0xD7) then c + 32
  else c.

Definition lower (s : str) : str := List.map lower_char s.

Definition eqb (s t : str) : bool := bool_decide (s = t).

End Py.

Import Py.

(** ** Third-party primitives

    The password hash and the token signature are operations of the
    libraries the service calls; the sources fix how they are used, not
    what they compute. *)

(** A claim value as it travels in a token: a JSON value, as
    [json.loads] gives it. A number written with a fraction or an
    exponent is a [float] (sign, mantissa and binary exponent; [Infinity]
    and [NaN] are accepted by [json.loads]); the members of an object are
    kept in their order, as a [dict] keeps them. *)
#[warnings="-register-all"] Inductive claim : Type :=
| CNull
| CBool (b : bool)
| CInt (n : Z)
| CFloat (f : spec_float)
| CStr (s : str)
| CList (items : list claim)
| CDict (items : list (list N * claim)).

Abbreviation claims := (gmap (list N) claim) (only parsing).

(** [bcrypt.hashpw(password, salt)] and [bcrypt.checkpw(password, hashed)]. *)
Class Bcrypt : Type := {
  hashpw : bytes -> bytes -> bytes;
  checkpw : bytes -> bytes -> bool
}.

(** What the service relies on: a password of at most 72 bytes checks
    against its own hash whatever the salt, and a hash is ASCII text (the
    modular crypt format). *)
Class BcryptSpec `{Bcrypt} : Prop := {
  checkpw_hashpw : forall pw salt,
    (length pw <= 72)%nat -> checkpw pw (hashpw pw salt) = true;
  hashpw_ascii : forall pw salt,
    Forall (fun b => (b < 0x80)%N) (hashpw pw salt)
}.

(** The names python-jose validates besides [exp] and [sub]. *)
Definition other_registered : list str :=
  [lit "iat"; lit "nbf"; lit "aud"; lit "iss"; lit "jti"; lit "at_hash"].

(** python-jose: the JWS layer ([jws_sign] builds the signed token of a
    claim set; [jws_verify] encodes the token, checks the signature and
    parses the payload, a JSON object), and [int()] of a string. *)
Class Jose : Type := {
  jws_sign : claims -> str -> str -> str;
  jws_verify : str -> str -> list str -> outcome claims;
  int_of_str : str -> option Z
}.

(** What is known of the JWS layer: the token is encoded as UTF-8 before
    anything else and outside every handler, so what [encode] raises,
    verification raises; and a token verifies to the claims it was signed
    for under the same key and algorithm. Nothing is assumed about the
    class of the other exceptions of verification. *)
Class JoseSpec `{Jose} : Prop := {
  jws_verify_encodes : forall token key algs e,
    Py.encode token = Raise e -> jws_verify token key algs = Raise e;
  jws_verify_sign : forall (c : claims) key alg,
    jws_verify (jws_sign c key alg) key [alg] = Return c
}.

(** The process environment: [os.getenv("SECRET_KEY", ...)]. *)
Class Env : Type := { SECRET_KEY : str }.

(** ** [models.py] *)

Module models.

Inductive UserRole : Type := USER | ADMIN.

(** The value of the string enumeration, as stored and serialised. *)
Definition role_value (r : UserRole) : str :=
  match r with
  | USER => lit "user"
  | ADMIN => lit "admin"
  end.

Definition role_eqb (a b : UserRole) : bool :=
  match a, b with
  | USER, USER | ADMIN, ADMIN => true
  | _, _ => false
  end.

Module User.
Record t : Type := mk {
  id : Z;
  username : str;
  email : str;
  hashed_password : str;
  role : UserRole;
  created_at : Z
}.
End User.

Module Advertisement.
Record t : Type := mk {
  id : Z;
  title : str;
  description : str;
  price : float;
  created_at : Z;
  owner_id : Z
}.
End Advertisement.

End models.

Import models.

(** ** [schemas.py]

    The request and response models. A handler receives a body that
    pydantic has already validated and typed; the length and format
    constraints are applied before the handler runs and are not repeated
    here. An optional field of an update model is in one of three states:
    not supplied ([None]), supplied as [null] ([Some None]) or supplied
    with a value ([Some (Some v)]); [model_dump(exclude_unset=True)] keeps
    the last two. *)

Module schemas.

Module UserCreate.
Record t : Type := mk {
  username : str;
  email : str;
  password : str;
  role : UserRole
}.
End UserCreate.

(** The keys of the dictionary [crud.update_user] builds. *)
Inductive user_field : Type :=
| f_username | f_email | f_password | f_hashed_password.

#[global] Instance user_field_eq_dec : EqDecision user_field.
Proof. solve_decision. Defined.

Module UserUpdate.
Record t : Type := mk {
  username : option (option str);
  email : option (option str);
  password : option (option str)
}.

Definition entry (f : user_field) (v : option (option str)) :
  list (user_field * option str) :=
  match v with
  | None => []
  | Some x => [(f, x)]
  end.

(** [user_update.model_dump(exclude_unset=True)], in field order. *)
Definition model_dump_exclude_unset (u : t) : list (user_field * option str) :=
  entry f_username (username u) ++ entry f_email (email u)
  ++ entry f_password (password u).
End UserUpdate.

Module UserResponse.
Record t : Type := mk {
  username : str;
  email : str;
  id : Z;
  role : UserRole;
  created_at : Z
}.

(** [response_model=UserResponse] with [from_attributes]: each field of
    the model is read from the attribute of that name. *)
Definition from_attributes (u : User.t) : t :=
  mk (User.username u) (User.email u) (User.id u) (User.role u)
     (User.created_at u).
End UserResponse.

(** A value of a JSON response body. *)
Inductive json : Type :=
| JStr (s : str)
| JInt (n : Z)
| JFloat (x : float)
| JTime (t : Z).

(** The body sent for a [UserResponse]: one member per field of the
    model, the fields of [UserBase] first. *)
Definition UserResponse_body (r : UserResponse.t) : list (string * json) :=
  [ ("username"%string, JStr (UserResponse.username r));
    ("email"%string, JStr (UserResponse.email r));
    ("id"%string, JInt (UserResponse.id r));
    ("role"%string, JStr (role_value (UserResponse.role r)));
    ("created_at"%string, JTime (UserResponse.created_at r)) ].

(** A typed entry of the dictionary [crud.update_advertisement] builds. *)
Inductive ad_entry : Type :=
| set_title (v : option str)
| set_description (v : option str)
| set_price (v : option float).

Module AdvertisementUpdate.
Record t : Type := mk {
  title : option (option str);
  description : option (option str);
  price : option (option float)
}.

Definition entry {A} (k : option A -> ad_entry) (v : option (option A)) :
  list ad_entry :=
  match v with
  | None => []
  | Some x => [k x]
  end.

(** [advertisement_update.model_dump(exclude_unset=True)]. *)
Definition model_dump_exclude_unset (u : t) : list ad_entry :=
  entry set_title (title u) ++ entry set_description (description u)
  ++ entry set_price (price u).
End AdvertisementUpdate.

Module AdvertisementResponse.
Record t : Type := mk {
  title : str;
  description : str;
  price : float;
  id : Z;
  owner_id : Z;
  created_at : Z
}.

Definition from_attributes (a : Advertisement.t) : t :=
  mk (Advertisement.title a) (Advertisement.description a)
     (Advertisement.price a) (Advertisement.id a)
     (Advertisement.owner_id a) (Advertisement.created_at a).
End AdvertisementResponse.

(** [AdvertisementCreate] has the fields of [AdvertisementBase]. *)
Module AdvertisementCreate.
Record t : Type := mk {
  title : str;
  description : str;
  price : float
}.
End AdvertisementCreate.

Module LoginRequest.
Record t : Type := mk {
  username : str;
  password : str
}.
End LoginRequest.

Module TokenResponse.
Record t : Type := mk {
  access_token : str;
  token_type : str
}.
End TokenResponse.

End schemas.

Import schemas.

(** ** The store and the ORM session

    The tables the session reads and writes. [commit] sends the pending
    INSERT, UPDATE or DELETE; the store refuses a statement that breaks a
    constraint [models.py] declares (primary key, [unique=True],
    [nullable=False]) with [IntegrityError], and is then left as it
    was. *)

Module database.

Record Store : Type := mkStore {
  users : list User.t;
  advertisements : list Advertisement.t
}.

(** Modelled from the spec: the session provider ([database.py]) is not
    among the sources. The specification calls a record's [id]
    system-generated and unique; the store hands out one more than the
    largest id in the table. *)
Definition next_id (ids : list Z) : Z := 1 + fold_right Z.max 0%Z ids.

(** [query.filter(p).first()]: the first row, in storage order, that
    satisfies [p]. *)
Definition first {A} (p : A -> bool) (rows : list A) : option A :=
  List.find p rows.

(** [db.add(User(...)); db.commit(); db.refresh(...)]: the INSERT of a
    user row, its id and [created_at] filled in by the store. *)
Definition insert_user (now : Z) (username email hashed_password : str)
    (role : UserRole) (db : Store) : outcome User.t * Store :=
  let row := User.mk (next_id (List.map User.id (users db))) username email
                     hashed_password role now in
  if existsb (fun u => (User.id u =? User.id row)%Z
                       || Py.eqb (User.username u) username
                       || Py.eqb (User.email u) email) (users db)
  then (Raise IntegrityError, db)
  else (Return row, mkStore (users db ++ [row]) (advertisements db)).

(** The column a [setattr] on a loaded user writes. [password] is not a
    column: assigning it sets a plain attribute and changes no row. *)
Definition set_user_column (r : User.t) (f : user_field) (v : str) : User.t :=
  match f with
  | f_username =>
      User.mk (User.id r) v (User.email r) (User.hashed_password r)
              (User.role r) (User.created_at r)
  | f_email =>
      User.mk (User.id r) (User.username r) v (User.hashed_password r)
              (User.role r) (User.created_at r)
  | f_hashed_password =>
      User.mk (User.id r) (User.username r) (User.email r) v
              (User.role r) (User.created_at r)
  | f_password => r
  end.

Definition is_user_column (f : user_field) : bool :=
  match f with
  | f_password => false
  | _ => true
  end.

(** The SET clause of the UPDATE: the assignments, in order. *)
Fixpoint set_user_columns (r : User.t)
    (pending : list (user_field * option str)) : User.t :=
  match pending with
  | [] => r
  | (f, Some v) :: rest => set_user_columns (set_user_column r f v) rest
  | (_, None) :: rest => set_user_columns r rest
  end.

(** A pending assignment the users table refuses: [NULL] in a column, or
    a username or e-mail another row already holds. *)
Definition user_assignment_refused (db : Store) (pk : Z)
    (a : user_field * option str) : bool :=
  match a with
  | (f, None) => is_user_column f
  | (f_username, Some v) =>
      existsb (fun u => negb (User.id u =? pk)%Z && Py.eqb (User.username u) v)
              (users db)
  | (f_email, Some v) =>
      existsb (fun u => negb (User.id u =? pk)%Z && Py.eqb (User.email u) v)
              (users db)
  | (_, Some _) => false
  end.

(** [db.commit()] after the [setattr]s on the user loaded with key [pk]:
    [UPDATE users SET ... WHERE id = pk]. *)
Definition update_user_row (pk : Z) (pending : list (user_field * option str))
    (db : Store) : outcome unit * Store :=
  if existsb (user_assignment_refused db pk) pending
  then (Raise IntegrityError, db)
  else (Return tt,
        mkStore (List.map (fun r => if (User.id r =? pk)%Z
                                    then set_user_columns r pending else r)
                          (users db))
                (advertisements db)).

Definition set_ad_column (r : Advertisement.t) (a : ad_entry) : Advertisement.t :=
  match a with
  | set_title (Some v) =>
      Advertisement.mk (Advertisement.id r) v (Advertisement.description r)
        (Advertisement.price r) (Advertisement.created_at r)
        (Advertisement.owner_id r)
  | set_description (Some v) =>
      Advertisement.mk (Advertisement.id r) (Advertisement.title r) v
        (Advertisement.price r) (Advertisement.created_at r)
        (Advertisement.owner_id r)
  | set_price (Some v) =>
      Advertisement.mk (Advertisement.id r) (Advertisement.title r)
        (Advertisement.description r) v (Advertisement.created_at r)
        (Advertisement.owner_id r)
  | _ => r
  end.

Definition set_ad_columns (r : Advertisement.t) (pending : list ad_entry) :
  Advertisement.t :=
  fold_left set_ad_column pending r.

(** Every column of an advertisement is [nullable=False]. *)
Definition ad_assignment_refused (a : ad_entry) : bool :=
  match a with
  | set_title None | set_description None | set_price None => true
  | _ => false
  end.

(** [UPDATE advertisements SET ... WHERE id = pk]. *)
Definition update_ad_row (pk : Z) (pending : list ad_entry) (db : Store) :
  outcome unit * Store :=
  if existsb ad_assignment_refused pending
  then (Raise IntegrityError, db)
  else (Return tt,
        mkStore (users db)
                (List.map (fun r => if (Advertisement.id r =? pk)%Z
                                    then set_ad_columns r pending else r)
                          (advertisements db))).

(** [db.delete(row); db.commit()]: [DELETE FROM advertisements WHERE
    id = pk]. No table refers to an advertisement. *)
Definition delete_ad_row (pk : Z) (db : Store) : Store :=
  mkStore (users db)
          (List.filter (fun r => negb (Advertisement.id r =? pk)%Z)
                       (advertisements db)).

(** Modelled from the spec: [database.py], which configures the engine,
    is not among the sources; section 9 of the specification leaves
    referential integrity to the storage engine's defaults, under which
    the reference [owner_id -> users.id] is not checked: an advertisement
    is stored whether or not its owner is a stored user.
    [db.add(Advertisement(...)); db.commit(); db.refresh(...)]: the id and
    [created_at] are filled in by the store. *)
Definition insert_ad (now : Z) (title description : str) (price : float)
    (owner_id : Z) (db : Store) : outcome Advertisement.t * Store :=
  let row := Advertisement.mk (next_id (List.map Advertisement.id
                                                 (advertisements db)))
                              title description price now owner_id in
  if existsb (fun a => (Advertisement.id a =? Advertisement.id row)%Z)
             (advertisements db)
  then (Raise IntegrityError, db)
  else (Return row, mkStore (users db) (advertisements db ++ [row])).

(** [db.delete(db_user); db.commit()]. The relationship
    [User.advertisements] declares no delete cascade, so the session first
    detaches the user's advertisements by setting their [owner_id] to
    NULL; [owner_id] is [nullable=False], and the store refuses that
    UPDATE. A user without advertisements is deleted:
    [DELETE FROM users WHERE id = pk]. *)
Definition delete_user_row (pk : Z) (db : Store) : outcome unit * Store :=
  if existsb (fun a => (Advertisement.owner_id a =? pk)%Z) (advertisements db)
  then (Raise IntegrityError, db)
  else (Return tt,
        mkStore (List.filter (fun r => negb (User.id r =? pk)%Z) (users db))
                (advertisements db)).

End database.

Import database.

(** ** [auth.py] *)

Module auth.

Section Auth.
Context `{Bcrypt} `{Jose} `{Env}.

Definition ALGORITHM : str := lit "HS256".
Definition ACCESS_TOKEN_EXPIRE_HOURS : Z := 48.

(** [timedelta(hours=h)], in microseconds, the resolution of [datetime]. *)
Definition timedelta_hours (h : Z) : Z := (h * 3600 * 1000000)%Z.

(** [timegm(d.utctimetuple())]: the whole seconds of a [datetime]. *)
Definition timegm (d : Z) : Z := (d / 1000000)%Z.

(** [password_bytes[:72]] when the encoding is longer than 72 bytes. *)
Definition truncate72 (password_bytes : bytes) : bytes :=
  if (72 <? length password_bytes)%nat then take 72 password_bytes
  else password_bytes.

(** [salt] is the value of [bcrypt.gensalt()]. *)
Definition safe_bcrypt_hash (salt : bytes) (password : str) : outcome str :=
  password_bytes ← Py.encode password;
  let password_bytes := truncate72 password_bytes in
  let hashed := hashpw password_bytes salt in
  Py.decode hashed.

Definition safe_bcrypt_verify (plain_password hashed_password : str) :
  outcome bool :=
  password_bytes ← Py.encode plain_password;
  let password_bytes := truncate72 password_bytes in
  hashed ← Py.encode hashed_password;
  Return (checkpw password_bytes hashed).

Definition verify_password (plain_password hashed_password : str) :
  outcome bool :=
  safe_bcrypt_verify plain_password hashed_password.

Definition get_password_hash (salt : bytes) (password : str) : outcome str :=
  safe_bcrypt_hash salt password.

(** *** [jose.jwt]

    [jwt.encode] turns a [datetime] under [exp] into its whole seconds
    and signs the claims; [create_access_token] below stores [exp]
    already converted. [jwt.decode] verifies the signature, then
    validates the registered claims in the order [iat], [nbf], [exp],
    [aud], [iss], [sub], [jti], [at_hash], with the options python-jose
    has by default and no audience, issuer, subject or access token
    given. The first check that raises decides the exception. *)

Definition k_exp : str := lit "exp".
Definition k_sub : str := lit "sub".
Definition k_iat : str := lit "iat".
Definition k_nbf : str := lit "nbf".
Definition k_aud : str := lit "aud".
Definition k_jti : str := lit "jti".
Definition k_at_hash : str := lit "at_hash".

(** [int(x)] of a [float]: the integer part; [ValueError] for a NaN,
    [OverflowError] for an infinity. *)
Definition int_of_float (f : spec_float) : outcome Z :=
  match f with
  | S754_zero _ => Return 0%Z
  | S754_infinity _ => Raise OverflowError
  | S754_nan => Raise ValueError
  | S754_finite s m e =>
      let magnitude := Z.shiftl (Zpos m) e in
      Return (if s then (- magnitude)%Z else magnitude)
  end.

(** [int(v)] of a claim value: [TypeError] for [None], a list or a
    dictionary, [ValueError] for a string that is no integer literal. *)
Definition int (v : claim) : outcome Z :=
  match v with
  | CInt n => Return n
  | CBool b => Return (if b then 1 else 0)%Z
  | CFloat f => int_of_float f
  | CStr s =>
      match int_of_str s with
      | Some n => Return n
      | None => Raise ValueError
      end
  | CNull | CList _ | CDict _ => Raise TypeError
  end.

(** [try: int(v) except ValueError: raise JWTClaimsError(...)]; an
    exception of another class goes on. *)
Definition int_claim (v : claim) : outcome Z :=
  match int v with
  | Raise ValueError => Raise JWTClaimsError
  | r => r
  end.

(** [_validate_iat]: [int(claims["iat"])] must be defined. *)
Definition validate_iat (c : claims) : outcome unit :=
  match c !! k_iat with
  | None => Return tt
  | Some v => _ ← int_claim v; Return tt
  end.

(** [_validate_nbf]: [int(claims["nbf"])] must not lie after the current
    whole second. *)
Definition validate_nbf (now : Z) (c : claims) : outcome unit :=
  match c !! k_nbf with
  | None => Return tt
  | Some v =>
      nbf ← int_claim v;
      if (timegm now <? nbf)%Z then Raise JWTClaimsError else Return tt
  end.

(** [_validate_exp]: [int(claims["exp"])] must not lie before the
    current whole second. *)
Definition validate_exp (now : Z) (c : claims) : outcome unit :=
  match c !! k_exp with
  | None => Return tt
  | Some v =>
      exp ← int_claim v;
      if (exp <? timegm now)%Z then Raise ExpiredSignatureError
      else Return tt
  end.

(** [_validate_aud] with [audience=None]: an audience claim that is
    neither a string nor a list of strings is refused for its format, and
    one that is, for not holding [None]. *)
Definition validate_aud (c : claims) : outcome unit :=
  match c !! k_aud with
  | None => Return tt
  | Some _ => Raise JWTClaimsError
  end.

(** [_validate_iss] with [issuer=None] checks nothing. *)
Definition validate_iss (c : claims) : outcome unit := Return tt.

(** [_validate_sub]: a subject, when present, must be a string. *)
Definition validate_sub (c : claims) : outcome unit :=
  match c !! k_sub with
  | None | Some (CStr _) => Return tt
  | Some _ => Raise JWTClaimsError
  end.

(** [_validate_jti]: a token id, when present, must be a string. *)
Definition validate_jti (c : claims) : outcome unit :=
  match c !! k_jti with
  | None | Some (CStr _) => Return tt
  | Some _ => Raise JWTClaimsError
  end.

(** [_validate_at_hash] with [access_token=None]: an [at_hash] claim has
    nothing to be compared with and is refused. *)
Definition validate_at_hash (c : claims) : outcome unit :=
  match c !! k_at_hash with
  | None => Return tt
  | Some _ => Raise JWTClaimsError
  end.

Definition validate_claims (now : Z) (c : claims) : outcome unit :=
  _ ← validate_iat c;
  _ ← validate_nbf now c;
  _ ← validate_exp now c;
  _ ← validate_aud c;
  _ ← validate_iss c;
  _ ← validate_sub c;
  _ ← validate_jti c;
  validate_at_hash c.

Definition jwt_decode (now : Z) (token key : str) (algorithms : list str) :
  outcome claims :=
  c ← jws_verify token key algorithms;
  _ ← validate_claims now c;
  Return c.

(** A [datetime] holds the years 1 to 9999: in microseconds since the
    epoch, from [datetime.min] to [datetime.max]. *)
Definition datetime_min : Z := (-62135596800000000)%Z.
Definition datetime_max : Z := 253402300799999999%Z.

(** [now] is [datetime.utcnow()]; [expires_delta] is a [timedelta] in
    microseconds, falsy when absent or zero. The sum is taken where it is
    a [datetime], from [datetime_min] to [datetime_max]; beyond them
    Python raises [OverflowError], which is outside this function's
    domain here. *)
Definition create_access_token (now : Z) (data : claims)
    (expires_delta : option Z) : str :=
  let to_encode := data in
  let expire :=
    match expires_delta with
    | Some d => if (d =? 0)%Z
                then (now + timedelta_hours ACCESS_TOKEN_EXPIRE_HOURS)%Z
                else (now + d)%Z
    | None => (now + timedelta_hours ACCESS_TOKEN_EXPIRE_HOURS)%Z
    end in
  let to_encode := <[k_exp := CInt (timegm expire)]> to_encode in
  jws_sign to_encode SECRET_KEY ALGORITHM.

(** [try: ... except JWTError: return None]; any other exception goes on
    to the caller. *)
Definition verify_token (now : Z) (token : str) : outcome (option claims) :=
  match jwt_decode now token SECRET_KEY [ALGORITHM] with
  | Return payload => Return (Some payload)
  | Raise e => if is_JWTError e then Return None else Raise e
  end.

End Auth.

End auth.

(** ** [crud.py] *)

Module crud.

(** A Python dictionary with keys in insertion order. *)
Section Dict.
Context {K V : Type} `{EqDecision K}.

Definition dict_in (k : K) (d : list (K * V)) : bool :=
  existsb (fun e => bool_decide (fst e = k)) d.

(** [d.pop(k)]: the value of [k] and the rest, or nothing for a key that
    is not present (Python raises [KeyError]). *)
Fixpoint dict_pop (k : K) (d : list (K * V)) : option (V * list (K * V)) :=
  match d with
  | [] => None
  | (k', v) :: rest =>
      if bool_decide (k' = k) then Some (v, rest)
      else match dict_pop k rest with
           | Some (x, rest') => Some (x, (k', v) :: rest')
           | None => None
           end
  end.

(** [d[k] = v]: in place for a key that is present, else at the end. *)
Fixpoint dict_set (k : K) (v : V) (d : list (K * V)) : list (K * V) :=
  match d with
  | [] => [(k, v)]
  | (k', v') :: rest =>
      if bool_decide (k' = k) then (k, v) :: rest
      else (k', v') :: dict_set k v rest
  end.

End Dict.

(** Modelled from the spec: the engine behind the session
    ([database.py]) is not among the sources; following section 4.4 of
    the specification its LIKE compares a character of the pattern with a
    character of the text exactly (case-sensitively). *)
Definition like_char (p c : N) : bool := (p =? c)%N.

(** SQL's [text LIKE pattern], without an escape character: a percent
    sign in the pattern matches any run of characters and an underscore
    any one character. *)
Fixpoint like (pattern text : str) : bool :=
  match pattern with
  | [] => negb (truthy text)
  | p :: pattern' =>
      if (p =? 0x25)%N then
        (fix any_run (t : str) : bool :=
           like pattern' t
           || match t with
              | [] => false
              | _ :: t' => any_run t'
              end) text
      else
        match text with
        | [] => false
        | c :: text' => ((p =? 0x5F)%N || like_char p c) && like pattern' text'
        end
  end.

(** [Column.contains(other)] renders [column LIKE '%' || other || '%']
    and does not escape [other], whose percent signs and underscores
    are wildcards of the pattern. *)
Definition contains (column other : str) : bool :=
  like ([0x25%N] ++ other ++ [0x25%N]) column.

Section Crud.
Context `{Bcrypt}.

Definition create_user (salt : bytes) (now : Z) (db : Store)
    (user : UserCreate.t) : outcome User.t * Store :=
  match auth.get_password_hash salt (UserCreate.password user) with
  | Raise e => (Raise e, db)
  | Return hashed_password =>
      insert_user now (UserCreate.username user) (UserCreate.email user)
                  hashed_password (UserCreate.role user) db
  end.

Definition get_user_by_id (db : Store) (user_id : Z) : option User.t :=
  first (fun u => (User.id u =? user_id)%Z) (users db).

Definition get_user_by_username (db : Store) (username : str) :
  option User.t :=
  first (fun u => Py.eqb (User.username u) username) (users db).

(** The dictionary after
    [if "password" in update_data: update_data["hashed_password"] =
     get_password_hash(update_data.pop("password"))];
    [None.encode] raises [AttributeError]. *)
Definition hash_supplied_password (salt : bytes)
    (update_data : list (user_field * option str)) :
  outcome (list (user_field * option str)) :=
  if dict_in f_password update_data then
    match dict_pop f_password update_data with
    | None => Raise KeyError
    | Some (None, _) => Raise AttributeError
    | Some (Some password, rest) =>
        hashed ← auth.get_password_hash salt password;
        Return (dict_set f_hashed_password (Some hashed) rest)
    end
  else Return update_data.

Definition update_user (salt : bytes) (db : Store) (user_id : Z)
    (user_update : UserUpdate.t) : outcome (option User.t) * Store :=
  match get_user_by_id db user_id with
  | None => (Return None, db)
  | Some db_user =>
      let update_data := UserUpdate.model_dump_exclude_unset user_update in
      match hash_supplied_password salt update_data with
      | Raise e => (Raise e, db)
      | Return update_data =>
          match update_user_row (User.id db_user) update_data db with
          | (Raise e, db') => (Raise e, db')
          | (Return _, db') =>
              (Return (get_user_by_id db' (User.id db_user)), db')
          end
      end
  end.

Definition delete_user (db : Store) (user_id : Z) : outcome bool * Store :=
  match get_user_by_id db user_id with
  | Some db_user =>
      match delete_user_row (User.id db_user) db with
      | (Raise e, db') => (Raise e, db')
      | (Return _, db') => (Return true, db')
      end
  | None => (Return false, db)
  end.

Definition authenticate_user (db : Store) (username password : str) :
  outcome (option User.t) :=
  match get_user_by_username db username with
  | None => Return None
  | Some user =>
      ok ← auth.verify_password password (User.hashed_password user);
      Return (if (ok : bool) then Some user else None)
  end.

(** [now] is the store's clock at the INSERT. *)
Definition create_advertisement (now : Z) (db : Store)
    (advertisement : AdvertisementCreate.t) (owner_id : Z) :
  outcome Advertisement.t * Store :=
  insert_ad now (AdvertisementCreate.title advertisement)
            (AdvertisementCreate.description advertisement)
            (AdvertisementCreate.price advertisement) owner_id db.

Definition get_advertisement (db : Store) (advertisement_id : Z) :
  option Advertisement.t :=
  first (fun a => (Advertisement.id a =? advertisement_id)%Z)
        (advertisements db).

Definition update_advertisement (db : Store) (advertisement_id : Z)
    (advertisement_update : AdvertisementUpdate.t) :
  outcome (option Advertisement.t) * Store :=
  match get_advertisement db advertisement_id with
  | None => (Return None, db)
  | Some db_advertisement =>
      let update_data :=
        AdvertisementUpdate.model_dump_exclude_unset advertisement_update in
      match update_ad_row (Advertisement.id db_advertisement) update_data db with
      | (Raise e, db') => (Raise e, db')
      | (Return _, db') =>
          (Return (get_advertisement db' (Advertisement.id db_advertisement)),
           db')
      end
  end.

Definition delete_advertisement (db : Store) (advertisement_id : Z) :
  bool * Store :=
  match get_advertisement db advertisement_id with
  | None => (false, db)
  | Some db_advertisement =>
      (true, delete_ad_row (Advertisement.id db_advertisement) db)
  end.

(** [if title:] and [if description:] test truthiness, the price bounds
    test [is not None]. *)
Definition search_advertisements (db : Store) (title description : option str)
    (min_price max_price : option float) : list Advertisement.t :=
  let query := advertisements db in
  let query :=
    match title with
    | Some t =>
        if truthy t
        then List.filter (fun a => contains (Advertisement.title a) t) query
        else query
    | None => query
    end in
  let query :=
    match description with
    | Some d =>
        if truthy d
        then List.filter (fun a => contains (Advertisement.description a) d)
                         query
        else query
    | None => query
    end in
  let query :=
    match min_price with
    | Some lo =>
        List.filter (fun a => PrimFloat.leb lo (Advertisement.price a)) query
    | None => query
    end in
  let query :=
    match max_price with
    | Some hi =>
        List.filter (fun a => PrimFloat.leb (Advertisement.price a) hi) query
    | None => query
    end in
  query.

End Crud.

End crud.

(** ** [main.py]

    A handler returns its result, or the exception it raises, and the
    store it leaves. [current_user] is the value of the dependency a
    route declares. *)

Module main.

Section Main.
Context `{Bcrypt} `{Jose} `{Env}.

Definition HTTP_400_BAD_REQUEST : Z := 400.
Definition HTTP_401_UNAUTHORIZED : Z := 401.
Definition HTTP_403_FORBIDDEN : Z := 403.

Definition k_user_id : str := lit "user_id".
Definition k_role : str := lit "role".

(** [authorization] is the header, [None] when the request has none.
    Splitting and lower-casing a string raise nothing, so the
    [try]/[except Exception] around them has no handler to run. A verified
    payload whose subject is not a string does not occur
    ([auth.validate_sub]); that branch resolves no identity. *)
Definition get_current_user (now : Z) (db : Store)
    (authorization : option str) : outcome (option User.t) :=
  match authorization with
  | None => Return None
  | Some authorization =>
      match Py.split authorization with
      | [scheme; token] =>
          if negb (Py.eqb (Py.lower scheme) (lit "bearer")) then Return None
          else
            payload ← auth.verify_token now token;
            match payload with
            | None => Return None
            | Some payload =>
                match payload !! auth.k_sub with
                | None => Return None
                | Some (CStr username) =>
                    Return (crud.get_user_by_username db username)
                | Some _ => Return None
                end
            end
      | _ => Return None
      end
  end.




(** POST /user *)
Definition create_user (salt : bytes) (now : Z) (db : Store)
    (user : UserCreate.t) : outcome UserResponse.t * Store :=
  match crud.get_user_by_username db (UserCreate.username user) with
  | Some _ =>
      (Raise (HTTPException HTTP_400_BAD_REQUEST "Username already registered"),
       db)
  | None =>
      match first (fun u => Py.eqb (User.email u) (UserCreate.email user))
                  (users db) with
      | Some _ =>
          (Raise (HTTPException HTTP_400_BAD_REQUEST "Email already registered"),
           db)
      | None =>
          let '(r, db') := crud.create_user salt now db user in
          (UserResponse.from_attributes <$> r, db')
      end
  end.

(** PATCH /user/{user_id} *)
Definition update_user (salt : bytes) (db : Store) (user_id : Z)
    (user_update : UserUpdate.t) (current_user : User.t) :
  outcome UserResponse.t * Store :=
  if negb (User.id current_user =? user_id)%Z
     && negb (role_eqb (User.role current_user) ADMIN)
  then (Raise (HTTPException HTTP_403_FORBIDDEN
                 "Not enough permissions to update this user"), db)
  else
    match crud.update_user salt db user_id user_update with
    | (Raise e, db') => (Raise e, db')
    | (Return None, db') => (Raise (HTTPException 404 "User not found"), db')
    | (Return (Some db_user), db') =>
        (Return (UserResponse.from_attributes db_user), db')
    end.

(** PATCH /advertisement/{advertisement_id}. The handler returns what
    [crud.update_advertisement] returns; [None] does not fit the response
    model. *)
Definition update_advertisement (db : Store) (advertisement_id : Z)
    (advertisement_update : AdvertisementUpdate.t) (current_user : User.t) :
  outcome AdvertisementResponse.t * Store :=
  match crud.get_advertisement db advertisement_id with
  | None => (Raise (HTTPException 404 "Advertisement not found"), db)
  | Some db_advertisement =>
      if negb (Advertisement.owner_id db_advertisement =? User.id current_user)%Z
         && negb (role_eqb (User.role current_user) ADMIN)
      then (Raise (HTTPException HTTP_403_FORBIDDEN
                     "Not enough permissions to update this advertisement"),
            db)
      else
        match crud.update_advertisement db advertisement_id
                advertisement_update with
        | (Raise e, db') => (Raise e, db')
        | (Return (Some a), db') =>
            (Return (AdvertisementResponse.from_attributes a), db')
        | (Return None, db') => (Raise ResponseValidationError, db')
        end
  end.

(** DELETE /advertisement/{advertisement_id}: the result is the message
    of the confirmation. *)
Definition delete_advertisement (db : Store) (advertisement_id : Z)
    (current_user : User.t) : outcome string * Store :=
  match crud.get_advertisement db advertisement_id with
  | None => (Raise (HTTPException 404 "Advertisement not found"), db)
  | Some db_advertisement =>
      if negb (Advertisement.owner_id db_advertisement =? User.id current_user)%Z
         && negb (role_eqb (User.role current_user) ADMIN)
      then (Raise (HTTPException HTTP_403_FORBIDDEN
                     "Not enough permissions to delete this advertisement"),
            db)
      else
        let '(success, db') := crud.delete_advertisement db advertisement_id in
        if negb success
        then (Raise (HTTPException 404 "Advertisement not found"), db')
        else (Return "Advertisement deleted successfully"%string, db')
  end.

(** GET /user/{user_id}; [current_user] is the optional identity, which
    the handler does not read. *)
Definition get_user (db : Store) (user_id : Z) (current_user : option User.t) :
  outcome UserResponse.t :=
  match crud.get_user_by_id db user_id with
  | None => Raise (HTTPException 404 "User not found")
  | Some db_user => Return (UserResponse.from_attributes db_user)
  end.

(** DELETE /user/{user_id} *)
Definition delete_user (db : Store) (user_id : Z) (current_user : User.t) :
  outcome string * Store :=
  if negb (User.id current_user =? user_id)%Z
     && negb (role_eqb (User.role current_user) ADMIN)
  then (Raise (HTTPException HTTP_403_FORBIDDEN
                 "Not enough permissions to delete this user"), db)
  else
    match crud.delete_user db user_id with
    | (Raise e, db') => (Raise e, db')
    | (Return success, db') =>
        if negb success
        then (Raise (HTTPException 404 "User not found"), db')
        else (Return "User deleted successfully"%string, db')
    end.

(** POST /advertisement *)
Definition create_advertisement (now : Z) (db : Store)
    (advertisement : AdvertisementCreate.t) (current_user : User.t) :
  outcome AdvertisementResponse.t * Store :=
  let '(r, db') := crud.create_advertisement now db advertisement
                     (User.id current_user) in
  (AdvertisementResponse.from_attributes <$> r, db').

(** GET /advertisement/{advertisement_id} *)
Definition get_advertisement (db : Store) (advertisement_id : Z)
    (current_user : option User.t) : outcome AdvertisementResponse.t :=
  match crud.get_advertisement db advertisement_id with
  | None => Raise (HTTPException 404 "Advertisement not found")
  | Some db_advertisement =>
      Return (AdvertisementResponse.from_attributes db_advertisement)
  end.

(** GET /advertisement *)
Definition search_advertisements (db : Store) (title description : option str)
    (min_price max_price : option float) (current_user : option User.t) :
  list AdvertisementResponse.t :=
  List.map AdvertisementResponse.from_attributes
    (crud.search_advertisements db title description min_price max_price).

(** The claims POST /login puts in a token; the role, a string
    enumeration, is serialised as its value. *)
Definition login_claims (user : User.t) : claims :=
  <[k_role := CStr (role_value (User.role user))]>
    (<[k_user_id := CInt (User.id user)]>
       (<[auth.k_sub := CStr (User.username user)]> ∅)).

(** POST /login *)
Definition login (now : Z) (db : Store) (login_data : LoginRequest.t) :
  outcome TokenResponse.t :=
  user ← crud.authenticate_user db (LoginRequest.username login_data)
                                (LoginRequest.password login_data);
  match user with
  | None =>
      Raise (HTTPException HTTP_401_UNAUTHORIZED
               "Incorrect username or password")
  | Some user =>
      let access_token := auth.create_access_token now (login_claims user) None in
      Return (TokenResponse.mk access_token (lit "bearer"))
  end.

End Main.

End main.

(** * The vocabulary of the properties *)

Section Vocabulary.

Local Open Scope N_scope.

(** ** Text *)

(** A string [encode('utf-8')] accepts: every code point is a Unicode
    scalar value. The strings of a validated request body are such:
    pydantic refuses a string that holds a lone surrogate. *)
Definition wf_str (s : str) : Prop := Forall (fun c => is_scalar c = true) s.

(** Text in the ASCII range. *)
Definition ascii_str (s : str) : Prop := Forall (fun c => c < 0x80) s.

(** [s] is the word [t], written in lower case, up to the case of its
    letters. *)
Definition caseless (t s : str) : Prop :=
  Forall2 (fun c l => c = l \/ c + 32 = l) s t.

(** ** Search *)

(** [x] is at the start of [t]. *)
Fixpoint prefixb (x t : str) : bool :=
  match x, t with
  | [], _ => true
  | _ :: _, [] => false
  | a :: x', b :: t' => (a =? b) && prefixb x' t'
  end.

(** [x in t]: the substring test of the specification, comparing the
    characters exactly. *)
Fixpoint substringb (x t : str) : bool :=
  prefixb x t
  || match t with
     | [] => false
     | _ :: t' => substringb x t'
     end.

(** A filter string without the two characters LIKE reads as wildcards. *)
Definition no_wildcard (s : str) : Prop :=
  Forall (fun c => c <> 0x25 /\ c <> 0x5F) s.

(** What each filter of the specification asks of an advertisement. *)
Definition title_ok (title : option str) (a : Advertisement.t) : bool :=
  match title with
  | Some t => substringb t (Advertisement.title a)
  | None => true
  end.

Definition description_ok (description : option str) (a : Advertisement.t) :
  bool :=
  match description with
  | Some d => substringb d (Advertisement.description a)
  | None => true
  end.

Definition min_price_ok (min_price : option float) (a : Advertisement.t) :
  bool :=
  match min_price with
  | Some lo => PrimFloat.leb lo (Advertisement.price a)
  | None => true
  end.

Definition max_price_ok (max_price : option float) (a : Advertisement.t) :
  bool :=
  match max_price with
  | Some hi => PrimFloat.leb (Advertisement.price a) hi
  | None => true
  end.

Definition satisfies (title description : option str)
    (min_price max_price : option float) (a : Advertisement.t) : bool :=
  title_ok title a && description_ok description a
  && min_price_ok min_price a && max_price_ok max_price a.

End Vocabulary.

(** ** Tokens *)

Section TokenVocabulary.
Context `{Jose}.

(** [int(v)] returns, or raises the [ValueError] that python-jose
    handles: [v] is an integer, a boolean, a string, or a float that is
    no infinity. *)
Definition convertible (v : claim) : Prop :=
  forall e, auth.int v = Raise e -> e = ValueError.

(** The claims python-jose converts with [int()], where present, are
    [convertible]. *)
Definition times_convertible (c : claims) : Prop :=
  forall k v, In k [auth.k_iat; auth.k_nbf; auth.k_exp] ->
              c !! k = Some v -> convertible v.

(** A moment a [datetime] can hold. *)
Definition is_datetime (d : Z) : Prop :=
  (auth.datetime_min <= d <= auth.datetime_max)%Z.

End TokenVocabulary.

(** ** Identity resolution *)

Section IdentityVocabulary.
Context `{Jose} `{Env}.

(** The reasons for which a request resolves to no identity. *)
Inductive no_identity (now : Z) (db : Store) : option str -> Prop :=
| header_absent :
    no_identity now db None
| not_two_tokens (h : str) :
    length (Py.split h) <> 2%nat ->
    no_identity now db (Some h)
| scheme_not_bearer (h scheme token : str) :
    Py.split h = [scheme; token] ->
    ~ caseless (lit "bearer") scheme ->
    no_identity now db (Some h)
| token_refused (h scheme token : str) :
    Py.split h = [scheme; token] ->
    auth.verify_token now token = Return None ->
    no_identity now db (Some h)
| subject_missing (h scheme token : str) (payload : claims) :
    Py.split h = [scheme; token] ->
    auth.verify_token now token = Return (Some payload) ->
    payload !! auth.k_sub = None ->
    no_identity now db (Some h)
| user_unknown (h scheme token : str) (payload : claims) (sub : str) :
    Py.split h = [scheme; token] ->
    auth.verify_token now token = Return (Some payload) ->
    payload !! auth.k_sub = Some (CStr sub) ->
    (forall u, In u (users db) -> User.username u <> sub) ->
    no_identity now db (Some h).



End IdentityVocabulary.

(** ** Changes to advertisements and users *)

(** The caller owns the advertisement or is an admin. *)
Definition may_change (ad : Advertisement.t) (caller : User.t) : Prop :=
  Advertisement.owner_id ad = User.id caller \/ User.role caller = ADMIN.

(** An update request that sets no field to [null]. *)
Definition no_null (u : AdvertisementUpdate.t) : Prop :=
  AdvertisementUpdate.title u <> Some None
  /\ AdvertisementUpdate.description u <> Some None
  /\ AdvertisementUpdate.price u <> Some None.

(** Two states of a user row that differ at most in the e-mail. *)
Definition same_but_email (old new : User.t) : Prop :=
  User.id new = User.id old
  /\ User.username new = User.username old
  /\ User.role new = User.role old
  /\ User.hashed_password new = User.hashed_password old
  /\ User.created_at new = User.created_at old.

(** Two states of the store: the advertisements are the same, the users
    are the same rows in the same order, only the row with key [pk] may
    have changed, and in nothing but the e-mail. *)
Definition only_email_changed (pk : Z) (db db' : Store) : Prop :=
  advertisements db' = advertisements db
  /\ Forall2 (fun old new => same_but_email old new
                             /\ (User.id old <> pk -> new = old))
             (users db) (users db').

(** ** The constraints of the store *)

(** The constraints [models.py] declares hold of a store: primary keys,
    usernames and e-mails are unique, and the owner of every advertisement
    is a stored user. *)
Definition store_ok (db : Store) : Prop :=
  NoDup (List.map User.id (users db))
  /\ NoDup (List.map User.username (users db))
  /\ NoDup (List.map User.email (users db))
  /\ NoDup (List.map Advertisement.id (advertisements db))
  /\ (forall a, In a (advertisements db) ->
        exists u, In u (users db) /\ User.id u = Advertisement.owner_id a).

(** What a text filter of [search_advertisements] asks of a column, as
    the store evaluates it. *)
Definition like_ok (filter : option str) (column : str) : bool :=
  match filter with
  | Some t => if truthy t then crud.contains column t else true
  | None => true
  end.

(** A header value is one word: not empty and free of whitespace. *)
Definition one_word (s : str) : Prop :=
  s <> [] /\ Forall (fun c => isspace c = false) s.

(** Two states of a user row with the same id, role and creation time. *)
Definition same_identity (old new : User.t) : Prop :=
  User.id new = User.id old
  /\ User.role new = User.role old
  /\ User.created_at new = User.created_at old.

(** Two states of an advertisement with the same id, owner and creation
    time. *)
Definition same_ownership (old new : Advertisement.t) : Prop :=
  Advertisement.id new = Advertisement.id old
  /\ Advertisement.owner_id new = Advertisement.owner_id old
  /\ Advertisement.created_at new = Advertisement.created_at old.

(** ** Instances of the primitives

    Small executable stand-ins for the libraries. They meet the contracts
    of [BcryptSpec] and [JoseSpec], and the properties are applied to them
    on concrete requests. *)

(** A claim value as a tree, for the code number of a claim set. *)
Definition claim_leaf : Type :=
  (bool + Z + (bool + bool + unit + bool * positive * Z) + list N)%type.

Definition float_leaf (f : spec_float) : bool + bool + unit + bool * positive * Z :=
  match f with
  | S754_zero s => inl (inl (inl s))
  | S754_infinity s => inl (inl (inr s))
  | S754_nan => inl (inr tt)
  | S754_finite s m e => inr (s, m, e)
  end.

Definition leaf_float (x : bool + bool + unit + bool * positive * Z) : spec_float :=
  match x with
  | inl (inl (inl s)) => S754_zero s
  | inl (inl (inr s)) => S754_infinity s
  | inl (inr _) => S754_nan
  | inr (s, m, e) => S754_finite s m e
  end.

Fixpoint claim_to_tree (c : claim) : gen_tree claim_leaf :=
  match c with
  | CNull => GenNode 0 []
  | CBool b => GenLeaf (inl (inl (inl b)))
  | CInt n => GenLeaf (inl (inl (inr n)))
  | CFloat f => GenLeaf (inl (inr (float_leaf f)))
  | CStr s => GenLeaf (inr s)
  | CList items => GenNode 1 (List.map claim_to_tree items)
  | CDict items =>
      GenNode 2 (List.map (fun kv => match kv with
                                     | (k, v) =>
                                         GenNode 3 [GenLeaf (inr k);
                                                    claim_to_tree v]
                                     end) items)
  end.

Fixpoint tree_to_claim (t : gen_tree claim_leaf) : option claim :=
  match t with
  | GenLeaf (inl (inl (inl b))) => Some (CBool b)
  | GenLeaf (inl (inl (inr n))) => Some (CInt n)
  | GenLeaf (inl (inr x)) => Some (CFloat (leaf_float x))
  | GenLeaf (inr s) => Some (CStr s)
  | GenNode 0 _ => Some CNull
  | GenNode 1 ts => CList <$> mapM tree_to_claim ts
  | GenNode 2 ts =>
      CDict <$> mapM (fun t => match t with
                               | GenNode _ [GenLeaf (inr k); tv] =>
                                   v ← tree_to_claim tv; Some (k, v)
                               | _ => None
                               end) ts
  | GenNode _ _ => None
  end.

Lemma mapM_map_Some {A B} (f : A -> option B) (g : B -> A) (l : list B) :
  Forall (fun x => f (g x) = Some x) l -> mapM f (List.map g l) = Some l.
Proof.
  induction 1 as [|x l Hx _ IH]; simpl; [reflexivity|].
  rewrite Hx. simpl. rewrite IH. reflexivity.
Qed.

Lemma float_leaf_round (f : spec_float) : leaf_float (float_leaf f) = f.
Proof. destruct f; reflexivity. Qed.

Lemma claim_tree_round : forall c, tree_to_claim (claim_to_tree c) = Some c.
Proof.
  fix IH 1. intros [|b|n|f|s|items|items]; simpl; try reflexivity.
  - rewrite float_leaf_round. reflexivity.
  - rewrite mapM_map_Some; [reflexivity|].
    induction items as [|c items IHitems]; constructor; [apply IH|exact IHitems].
  - rewrite mapM_map_Some; [reflexivity|].
    induction items as [|[k v] items IHitems]; constructor; [|exact IHitems].
    simpl. rewrite IH. reflexivity.
Qed.

#[global] Instance claim_eq_dec : EqDecision claim.
Proof.
  intros x y.
  destruct (decide (claim_to_tree x = claim_to_tree y)) as [Heq|Hne].
  - left. apply (f_equal tree_to_claim) in Heq.
    rewrite !claim_tree_round in Heq. congruence.
  - right. congruence.
Defined.

#[global] Instance claim_countable : Countable claim :=
  inj_countable claim_to_tree tree_to_claim claim_tree_round.

(** A number as text: its binary digits, the lowest first. *)
Fixpoint digits (p : positive) : str :=
  match p with
  | xH => []
  | xO q => 0x30%N :: digits q
  | xI q => 0x31%N :: digits q
  end.

Fixpoint number (s : str) : option positive :=
  match s with
  | [] => Some xH
  | c :: r =>
      q ← number r;
      if (c =? 0x30)%N then Some (xO q)
      else if (c =? 0x31)%N then Some (xI q)
      else None
  end.

Lemma number_digits (p : positive) : number (digits p) = Some p.
Proof. induction p as [q IH|q IH|]; simpl; rewrite ?IH; reflexivity. Qed.

Lemma digits_encode (p : positive) : exists b, Py.encode (digits p) = Return b.
Proof.
  induction p as [q [b IH]|q [b IH]|]; simpl; rewrite ?IH; simpl; eauto.
Qed.

Module Toy.

(** The "hash" of a password: its bytes with the top bit cleared. *)
Definition bcrypt : Bcrypt := {|
  hashpw := fun pw _ => List.map (fun b => N.land b 0x7F) pw;
  checkpw := fun pw hashed =>
    bool_decide (List.map (fun b => N.land b 0x7F) pw = hashed)
|}.

(** An unsigned token: the digits of one number that codes the key and
    the claim set. Verification encodes the token, reads the number and
    compares the key. *)
Definition jose : Jose := {|
  jws_sign := fun c key alg => digits (countable.encode (key, c));
  jws_verify := fun token key algs =>
    _ ← Py.encode token;
    match number token with
    | Some p =>
        match countable.decode p with
        | Some (key', c) => if Py.eqb key' key then Return c else Raise JWTError
        | None => Raise JWTError
        end
    | None => Raise JWTError
    end;
  int_of_str := fun _ => None
|}.

Definition env : Env := {| SECRET_KEY := lit "k" |}.

End Toy.

(** ** Example data *)

(** Two passwords of 73 characters that differ in the last one. *)
Definition long_password (last : string) : str :=
  List.repeat 0x61%N 72 ++ lit last.

(** The claims of a token for the user "alice", and a creation time. *)
Definition alice_claims : claims := {[auth.k_sub := CStr (lit "alice")]}.
Definition t0 : Z := 1700000000000000.

(** A store with three users and three advertisements, for the
    examples. Under [Toy.bcrypt] an ASCII password is its own hash. *)
Definition alice : User.t :=
  User.mk 1 (lit "alice") (lit "alice@example.org") (lit "alice-pw") USER 100.
Definition bob : User.t :=
  User.mk 2 (lit "bob") (lit "bob@example.org") (lit "bob-pw") ADMIN 200.
Definition carol : User.t :=
  User.mk 3 (lit "carol") (lit "carol@example.org") (lit "carol-pw") USER 300.

Definition ad_bike : Advertisement.t :=
  Advertisement.mk 1 (lit "abc bike") (lit "A red bike") 25%float 110 1.
Definition ad_sofa : Advertisement.t :=
  Advertisement.mk 2 (lit "Sofa") (lit "Green, 100% wool") 60%float 120 1.
Definition ad_book : Advertisement.t :=
  Advertisement.mk 3 (lit "Book") (lit "a_c") 10%float 130 3.

Definition db0 : Store := mkStore [alice; bob; carol] [ad_bike; ad_sofa; ad_book].

Definition alice_header : str :=
  lit "Bearer " ++ @auth.create_access_token Toy.jose Toy.env t0 alice_claims None.

Definition alice_login : LoginRequest.t :=
  LoginRequest.mk (lit "alice") (lit "alice-pw").

Definition dave_request : UserCreate.t :=
  UserCreate.mk (lit "dave") (lit "dave@example.org") (lit "dave-pw") USER.

Definition alice_again : UserCreate.t :=
  UserCreate.mk (lit "alice") (lit "other@example.org") (lit "secret") USER.

Definition lamp_request : AdvertisementCreate.t :=
  AdvertisementCreate.mk (lit "Lamp") (lit "Desk lamp") 15%float.

(** * Properties *)

(** Case analysis on every [match] of the goal. *)
Ltac case_matches :=
  repeat match goal with
         | |- context [match ?x with _ => _ end] => destruct x
         end.

(** Two string literals of the source differ. *)
Ltac literals_differ := vm_compute; discriminate.

(** ** Strings *)

Example split_bearer :
  Py.split (lit "  Bearer   abc.def ") = [lit "Bearer"; lit "abc.def"].
Proof. vm_compute. reflexivity. Qed.

(** A tab separates two words as a space does. *)
Example split_tab :
  Py.split (lit "Bearer" ++ [0x09%N] ++ lit "abc.def")
  = [lit "Bearer"; lit "abc.def"].
Proof. vm_compute. reflexivity. Qed.

Example lower_mixed_case : Py.lower (lit "BeArEr") = lit "bearer".
Proof. vm_compute. reflexivity. Qed.

Example encode_euro :
  Py.encode [0x20AC%N] = Return [0xE2; 0x82; 0xAC]%N.
Proof. vm_compute. reflexivity. Qed.

Example decode_euro :
  Py.decode [0xE2; 0x82; 0xAC]%N = Return [0x20AC%N].
Proof. vm_compute. reflexivity. Qed.

Example encode_lone_surrogate :
  Py.encode [0x61; 0xD800]%N = Raise UnicodeEncodeError.
Proof. vm_compute. reflexivity. Qed.

Section StrFacts.

Local Open Scope N_scope.

Lemma encode_char_scalar c :
  is_scalar c = true -> exists b, encode_char c = Return b.
Proof.
  unfold is_scalar, encode_char. intros Hc.
  apply andb_true_iff in Hc as [Hlt Hs]. apply negb_true_iff in Hs.
  rewrite Hs, Hlt.
  repeat match goal with |- context [if ?b then _ else _] => destruct b end;
    eauto.
Qed.

Lemma encode_total s : wf_str s -> exists b, encode s = Return b.
Proof.
  induction 1 as [|c s Hc _ [bs IH]]; simpl; [eauto|].
  destruct (encode_char_scalar c Hc) as [b Hb].
  rewrite Hb, IH. simpl. eauto.
Qed.

Lemma encode_ascii s : ascii_str s -> encode s = Return s.
Proof.
  induction 1 as [|c s Hc _ IH]; simpl; [reflexivity|].
  unfold encode_char. apply N.ltb_lt in Hc. rewrite Hc, IH. reflexivity.
Qed.

Lemma decode_ascii bs : ascii_str bs -> decode bs = Return bs.
Proof.
  induction 1 as [|b bs Hb _ IH]; simpl; [reflexivity|].
  apply N.ltb_lt in Hb. rewrite Hb, IH. reflexivity.
Qed.

Lemma ascii_wf s : ascii_str s -> wf_str s.
Proof.
  intros Hs. eapply Forall_impl; [exact Hs|].
  intros c Hc. simpl in Hc. unfold is_scalar, is_surrogate.
  apply andb_true_iff. split.
  - apply N.ltb_lt. lia.
  - apply negb_true_iff, andb_false_iff. left. apply N.leb_gt. lia.
Qed.

Lemma eqb_eq (s t : str) : Py.eqb s t = true <-> s = t.
Proof. unfold Py.eqb. apply bool_decide_eq_true. Qed.

Lemma eqb_neq (s t : str) : Py.eqb s t = false <-> s <> t.
Proof. unfold Py.eqb. apply bool_decide_eq_false. Qed.

End StrFacts.

(** ** The instances meet the contracts *)

Lemma toy_bcrypt_spec : @BcryptSpec Toy.bcrypt.
Proof.
  split; simpl.
  - intros pw _ _. apply bool_decide_eq_true. reflexivity.
  - intros pw _. apply Forall_forall. intros b Hb.
    apply list_elem_of_In, in_map_iff in Hb as [x [<- _]].
    change 0x80%N with (2 ^ 7)%N. change 0x7F%N with (N.ones 7).
    rewrite N.land_ones. apply N.mod_lt. discriminate.
Defined.

Lemma toy_jose_spec : @JoseSpec Toy.jose.
Proof.
  split; simpl.
  - intros token key algs e He. rewrite He. reflexivity.
  - intros c key alg.
    destruct (digits_encode (countable.encode (key, c))) as [b ->]. simpl.
    rewrite number_digits, decode_encode.
    replace (Py.eqb key key) with true
      by (symmetry; apply bool_decide_eq_true; reflexivity).
    reflexivity.
Defined.

(** ** Passwords *)

Section Passwords.
Context `{BcryptSpec}.

Lemma truncate72_length b : (length (auth.truncate72 b) <= 72)%nat.
Proof.
  unfold auth.truncate72. destruct (72 <? length b)%nat eqn:Hlen.
  - rewrite length_take. lia.
  - apply Nat.ltb_ge in Hlen. exact Hlen.
Qed.

Lemma truncate72_long b :
  (72 <= length b)%nat -> auth.truncate72 b = take 72 b.
Proof.
  intros Hlen. unfold auth.truncate72.
  destruct (72 <? length b)%nat eqn:E; [reflexivity|].
  apply Nat.ltb_ge in E. symmetry. apply take_ge. exact E.
Qed.

(** The hash of a password, as [get_password_hash] returns it. *)
Lemma get_password_hash_encoded salt p b :
  Py.encode p = Return b ->
  auth.get_password_hash salt p = Return (hashpw (auth.truncate72 b) salt).
Proof.
  intros Hb. unfold auth.get_password_hash, auth.safe_bcrypt_hash.
  rewrite Hb. simpl. apply decode_ascii, hashpw_ascii.
Qed.

(** Verification against a hash that [hashpw] produced compares the
    truncated encodings. *)
Lemma verify_password_hashed p b pw salt :
  Py.encode p = Return b ->
  auth.verify_password p (hashpw pw salt)
  = Return (checkpw (auth.truncate72 b) (hashpw pw salt)).
Proof.
  intros Hb. unfold auth.verify_password, auth.safe_bcrypt_verify.
  rewrite Hb. simpl. rewrite (encode_ascii _ (hashpw_ascii pw salt)).
  reflexivity.
Qed.

(** C2. A password verifies against its own hash, whatever the salt;
    and when the UTF-8 encodings of two passwords are both at least 72
    bytes long and agree on their first 72 bytes, the second password
    verifies against the hash of the first: hashing and verification both
    cut the encoding to 72 bytes. *)
Theorem truncated_password_verifies (salt : bytes) :
  (forall p, wf_str p ->
     exists h, auth.get_password_hash salt p = Return h
               /\ auth.verify_password p h = Return true)
  /\ (forall p1 p2 b1 b2,
        Py.encode p1 = Return b1 -> Py.encode p2 = Return b2 ->
        (72 <= length b1)%nat -> (72 <= length b2)%nat ->
        take 72 b1 = take 72 b2 ->
        exists h, auth.get_password_hash salt p1 = Return h
                  /\ auth.verify_password p2 h = Return true).
Proof.
  split.
  - intros p Hp. destruct (encode_total p Hp) as [b Hb].
    eexists. split; [apply get_password_hash_encoded; exact Hb|].
    rewrite (verify_password_hashed _ _ _ _ Hb).
    rewrite checkpw_hashpw by apply truncate72_length. reflexivity.
  - intros p1 p2 b1 b2 Hb1 Hb2 Hl1 Hl2 Hpre.
    eexists. split; [apply get_password_hash_encoded; exact Hb1|].
    rewrite (verify_password_hashed _ _ _ _ Hb2).
    rewrite (truncate72_long b1 Hl1), (truncate72_long b2 Hl2), Hpre.
    rewrite checkpw_hashpw by (rewrite length_take; lia). reflexivity.
Qed.

End Passwords.

Lemma truncated_password_verifies_witness :
  (exists h, @auth.get_password_hash Toy.bcrypt [] (lit "s3cret-pass") = Return h
             /\ @auth.verify_password Toy.bcrypt (lit "s3cret-pass") h
                = Return true)
  /\ (exists h, @auth.get_password_hash Toy.bcrypt [] (long_password "x")
                = Return h
                /\ @auth.verify_password Toy.bcrypt (long_password "y") h
                   = Return true).
Proof.
  pose proof (@truncated_password_verifies Toy.bcrypt toy_bcrypt_spec [])
    as [Hsame Hprefix].
  split.
  - apply Hsame. unfold wf_str. repeat constructor.
  - apply (Hprefix (long_password "x") (long_password "y")
                   (long_password "x") (long_password "y")).
    + vm_compute. reflexivity.
    + vm_compute. reflexivity.
    + vm_compute. lia.
    + vm_compute. lia.
    + vm_compute. reflexivity.
Defined.

(** ** Tokens *)

Section Conversions.
Context `{Jose}.

Lemma int_raises (v : claim) (e : exn) :
  auth.int v = Raise e -> e = ValueError \/ e = TypeError \/ e = OverflowError.
Proof.
  destruct v as [|b|n|f|s|items|items]; simpl; try discriminate;
    try (intros [= <-]; auto).
  - destruct f; simpl; try discriminate; intros [= <-]; auto.
  - destruct (int_of_str s); [discriminate|]. intros [= <-]. auto.
Qed.

(** What [int_claim] raises: [JWTClaimsError] in place of the
    [ValueError] of [int()], and the other exceptions of [int()] as they
    are. *)
Lemma int_claim_raises (v : claim) (e : exn) :
  auth.int_claim v = Raise e ->
  (e = JWTClaimsError /\ auth.int v = Raise ValueError)
  \/ ((e = TypeError \/ e = OverflowError) /\ auth.int v = Raise e).
Proof.
  unfold auth.int_claim. destruct (auth.int v) as [n|e0] eqn:Hi; [discriminate|].
  destruct (int_raises _ _ Hi) as [-> | [-> | ->]]; intros [= <-]; auto.
Qed.

Lemma int_claim_convertible (v : claim) (e : exn) :
  convertible v -> auth.int_claim v = Raise e -> e = JWTClaimsError.
Proof.
  intros Hv He. destruct (int_claim_raises _ _ He) as [[-> _] | [[-> | ->] Hi]];
    [reflexivity| |]; apply Hv in Hi; discriminate.
Qed.

Lemma convertible_int (n : Z) : convertible (CInt n).
Proof. intros e. discriminate. Qed.

Lemma null_not_convertible : ~ convertible CNull.
Proof. intros Hc. specialize (Hc TypeError eq_refl). discriminate. Qed.

End Conversions.

Section Tokens.
Context `{JoseSpec} `{Env}.

(** A check of a claim that [int()] converts raises a [JWTError], or
    the [TypeError] or [OverflowError] of the conversion. *)
Definition raises_of_conversion (c : claims) (k : str) (e : exn) : Prop :=
  is_JWTError e = true
  \/ ((e = TypeError \/ e = OverflowError)
      /\ exists v, c !! k = Some v /\ auth.int v = Raise e).

Lemma validate_iat_raises (c : claims) (e : exn) :
  auth.validate_iat c = Raise e -> raises_of_conversion c auth.k_iat e.
Proof.
  unfold auth.validate_iat, raises_of_conversion.
  destruct (c !! auth.k_iat) as [v|]; [|discriminate].
  destruct (auth.int_claim v) as [n|e0] eqn:Hi; simpl; [discriminate|].
  intros [= <-]. destruct (int_claim_raises _ _ Hi) as [[-> _] | [He Hr]];
    [left; reflexivity|right; eauto].
Qed.

Lemma validate_nbf_raises (now : Z) (c : claims) (e : exn) :
  auth.validate_nbf now c = Raise e -> raises_of_conversion c auth.k_nbf e.
Proof.
  unfold auth.validate_nbf, raises_of_conversion.
  destruct (c !! auth.k_nbf) as [v|]; [|discriminate].
  destruct (auth.int_claim v) as [n|e0] eqn:Hi; simpl.
  - destruct (auth.timegm now <? n)%Z; [|discriminate].
    intros [= <-]. left. reflexivity.
  - intros [= <-]. destruct (int_claim_raises _ _ Hi) as [[-> _] | [He Hr]];
      [left; reflexivity|right; eauto].
Qed.

Lemma validate_exp_raises (now : Z) (c : claims) (e : exn) :
  auth.validate_exp now c = Raise e -> raises_of_conversion c auth.k_exp e.
Proof.
  unfold auth.validate_exp, raises_of_conversion.
  destruct (c !! auth.k_exp) as [v|]; [|discriminate].
  destruct (auth.int_claim v) as [n|e0] eqn:Hi; simpl.
  - destruct (n <? auth.timegm now)%Z; [|discriminate].
    intros [= <-]. left. reflexivity.
  - intros [= <-]. destruct (int_claim_raises _ _ Hi) as [[-> _] | [He Hr]];
      [left; reflexivity|right; eauto].
Qed.

Lemma presence_check_raises (c : claims) (k : str) (e : exn) :
  match c !! k with
  | None => Return tt
  | Some _ => Raise JWTClaimsError
  end = Raise e -> is_JWTError e = true.
Proof. destruct (c !! k); [|discriminate]. intros [= <-]. reflexivity. Qed.

Lemma string_check_raises (c : claims) (k : str) (e : exn) :
  match c !! k with
  | None | Some (CStr _) => Return tt
  | Some _ => Raise JWTClaimsError
  end = Raise e -> is_JWTError e = true.
Proof.
  destruct (c !! k) as [[]|]; try discriminate; intros [= <-]; reflexivity.
Qed.

(** What a validation that returned has passed. *)
Lemma validate_claims_returns (now : Z) (c : claims) :
  auth.validate_claims now c = Return tt ->
  auth.validate_iat c = Return tt
  /\ auth.validate_nbf now c = Return tt
  /\ auth.validate_exp now c = Return tt
  /\ auth.validate_aud c = Return tt
  /\ auth.validate_sub c = Return tt
  /\ auth.validate_jti c = Return tt
  /\ auth.validate_at_hash c = Return tt.
Proof.
  unfold auth.validate_claims.
  destruct (auth.validate_iat c) as [[]|]; simpl; [|discriminate].
  destruct (auth.validate_nbf now c) as [[]|]; simpl; [|discriminate].
  destruct (auth.validate_exp now c) as [[]|]; simpl; [|discriminate].
  destruct (auth.validate_aud c) as [[]|]; simpl; [|discriminate].
  destruct (auth.validate_sub c) as [[]|]; simpl; [|discriminate].
  destruct (auth.validate_jti c) as [[]|]; simpl; [|discriminate].
  intros Hat. repeat split; try reflexivity. exact Hat.
Qed.

(** The validation of the claims raises a [JWTError], or the
    [TypeError] or [OverflowError] of the conversion of [iat], [nbf] or
    [exp]. *)
Lemma validate_claims_raises (now : Z) (c : claims) (e : exn) :
  auth.validate_claims now c = Raise e ->
  is_JWTError e = true
  \/ ((e = TypeError \/ e = OverflowError) /\ ~ times_convertible c).
Proof.
  assert (Hconv : forall k, In k [auth.k_iat; auth.k_nbf; auth.k_exp] ->
            raises_of_conversion c k e ->
            is_JWTError e = true
            \/ ((e = TypeError \/ e = OverflowError) /\ ~ times_convertible c)).
  { intros k Hk [Hj|[He (v & Hv & Hi)]]; [left; exact Hj|right].
    split; [exact He|]. intros Hall.
    specialize (Hall k v Hk Hv e Hi). destruct He; congruence. }
  unfold auth.validate_claims.
  destruct (auth.validate_iat c) as [[]|e0] eqn:Hv1; simpl.
  2:{ intros [= <-]. apply (Hconv auth.k_iat); [simpl; auto|].
      apply validate_iat_raises, Hv1. }
  destruct (auth.validate_nbf now c) as [[]|e0] eqn:Hv2; simpl.
  2:{ intros [= <-]. apply (Hconv auth.k_nbf); [simpl; auto|].
      eapply validate_nbf_raises, Hv2. }
  destruct (auth.validate_exp now c) as [[]|e0] eqn:Hv3; simpl.
  2:{ intros [= <-]. apply (Hconv auth.k_exp); [simpl; auto|].
      eapply validate_exp_raises, Hv3. }
  destruct (auth.validate_aud c) as [[]|e0] eqn:Hv4; simpl.
  2:{ intros [= <-]. left. eapply presence_check_raises, Hv4. }
  destruct (auth.validate_sub c) as [[]|e0] eqn:Hv5; simpl.
  2:{ intros [= <-]. left. eapply string_check_raises, Hv5. }
  destruct (auth.validate_jti c) as [[]|e0] eqn:Hv6; simpl.
  2:{ intros [= <-]. left. eapply string_check_raises, Hv6. }
  intros Hv7. left. eapply presence_check_raises, Hv7.
Qed.


(** What a decoding raises: the exception of the JWS layer, or of the
    validation of the claims. *)
Lemma jwt_decode_raises (now : Z) (token key : str) (algs : list str) (e : exn) :
  auth.jwt_decode now token key algs = Raise e ->
  jws_verify token key algs = Raise e
  \/ exists c, jws_verify token key algs = Return c
               /\ auth.validate_claims now c = Raise e.
Proof.
  unfold auth.jwt_decode.
  destruct (jws_verify token key algs) as [c|e0]; simpl.
  - destruct (auth.validate_claims now c) as [[]|e1] eqn:He; simpl;
      [discriminate|].
    intros [= <-]. right. eauto.
  - intros [= <-]. left. reflexivity.
Qed.

(** A [JWTError] of the decoding leaves [verify_token] with the absent
    result. *)
Lemma verify_token_decode_failed (now : Z) (token : str) (e : exn) :
  auth.jwt_decode now token SECRET_KEY [auth.ALGORITHM] = Raise e ->
  is_JWTError e = true ->
  auth.verify_token now token = Return None.
Proof.
  intros He Hj. unfold auth.verify_token. rewrite He, Hj. reflexivity.
Qed.

(** An expired [exp] fails the decoding with a [JWTError], be it the one
    of the expiry or one of the checks of [iat] and [nbf] before it. *)
Lemma verify_token_expired (now : Z) (token : str) (c : claims) (n : Z) :
  jws_verify token SECRET_KEY [auth.ALGORITHM] = Return c ->
  times_convertible c ->
  c !! auth.k_exp = Some (CInt n) ->
  (n < auth.timegm now)%Z ->
  auth.verify_token now token = Return None.
Proof.
  intros Hv Hconv Hexp Hpast.
  destruct (auth.validate_claims now c) as [[]|e] eqn:Hc.
  - apply validate_claims_returns in Hc as (_ & _ & He & _).
    unfold auth.validate_exp in He. rewrite Hexp in He. simpl in He.
    apply Z.ltb_lt in Hpast. rewrite Hpast in He. discriminate.
  - apply (verify_token_decode_failed _ _ e).
    + unfold auth.jwt_decode. rewrite Hv. simpl. rewrite Hc. reflexivity.
    + destruct (validate_claims_raises _ _ _ Hc) as [Hj|[_ Hn]];
        [exact Hj|contradiction].
Qed.

Lemma encode_raises (s : str) (e : exn) :
  Py.encode s = Raise e -> e = UnicodeEncodeError.
Proof.
  induction s as [|c r IH]; simpl; [discriminate|].
  destruct (encode_char c) as [b|e0] eqn:Hc; simpl.
  - destruct (Py.encode r) as [bs|e1]; simpl; [discriminate|].
    intros [= <-]. apply IH. reflexivity.
  - intros [= <-]. unfold encode_char in Hc.
    repeat match type of Hc with
           | context [if ?b then _ else _] => destruct b
           end; congruence.
Qed.

(** A signed token whose [exp] is null: the conversion raises
    [TypeError], which [verify_token] does not handle. *)
Lemma null_exp_raises (now : Z) (data : claims) :
  (forall k, In k other_registered -> data !! k = None) ->
  auth.verify_token now
    (jws_sign (<[auth.k_exp := CNull]> data) SECRET_KEY auth.ALGORITHM)
  = Raise TypeError.
Proof.
  intros Hother.
  assert (Hk : forall k, In k other_registered ->
            (<[auth.k_exp := CNull]> data : claims) !! k = None).
  { intros k Hin. rewrite lookup_insert_ne; [apply Hother, Hin|].
    intros <-. revert Hin. vm_compute. intuition discriminate. }
  unfold auth.verify_token, auth.jwt_decode.
  rewrite jws_verify_sign. simpl.
  unfold auth.validate_claims, auth.validate_iat, auth.validate_nbf,
    auth.validate_exp.
  rewrite (Hk auth.k_iat), (Hk auth.k_nbf) by (vm_compute; auto 10).
  simpl. rewrite lookup_insert_eq. reflexivity.
Qed.

(** C9. [verify_token] raises no [JWTError]: a decoding that succeeds
    gives the claims, and one that fails with a [JWTError] gives the
    absent result, be it on a token the JWS layer refuses with one
    (malformed, or with a wrong signature) or on one whose [exp] lies in
    the past. An exception of another class reaches the caller as it is:
    the one of the JWS layer, such as the [UnicodeEncodeError] of a token
    that [encode] refuses, or the [TypeError] or [OverflowError] of a
    verified payload whose [iat], [nbf] or [exp] is not [convertible].
    Where neither occurs, [verify_token] returns. *)
Theorem verify_token_raises_no_JWTError (now : Z) (token : str) :
  (forall payload,
     auth.jwt_decode now token SECRET_KEY [auth.ALGORITHM] = Return payload ->
     auth.verify_token now token = Return (Some payload))
  /\ (forall e,
        auth.jwt_decode now token SECRET_KEY [auth.ALGORITHM] = Raise e ->
        is_JWTError e = true ->
        auth.verify_token now token = Return None)
  /\ (forall e,
        jws_verify token SECRET_KEY [auth.ALGORITHM] = Raise e ->
        is_JWTError e = true ->
        auth.verify_token now token = Return None)
  /\ (forall (c : claims) n,
        jws_verify token SECRET_KEY [auth.ALGORITHM] = Return c ->
        times_convertible c ->
        c !! auth.k_exp = Some (CInt n) ->
        (n < auth.timegm now)%Z ->
        auth.verify_token now token = Return None)
  /\ (forall e,
        auth.verify_token now token = Raise e ->
        is_JWTError e = false
        /\ (jws_verify token SECRET_KEY [auth.ALGORITHM] = Raise e
            \/ exists c : claims,
                 jws_verify token SECRET_KEY [auth.ALGORITHM] = Return c
                 /\ ~ times_convertible c
                 /\ (e = TypeError \/ e = OverflowError)))
  /\ (forall e,
        Py.encode token = Raise e ->
        e = UnicodeEncodeError
        /\ auth.verify_token now token = Raise UnicodeEncodeError)
  /\ ((forall e, jws_verify token SECRET_KEY [auth.ALGORITHM] = Raise e ->
                 is_JWTError e = true) ->
      (forall c : claims,
         jws_verify token SECRET_KEY [auth.ALGORITHM] = Return c ->
         times_convertible c) ->
      exists r, auth.verify_token now token = Return r).
Proof.
  assert (Hraise : forall e,
            auth.verify_token now token = Raise e ->
            is_JWTError e = false
            /\ auth.jwt_decode now token SECRET_KEY [auth.ALGORITHM] = Raise e).
  { intros e. unfold auth.verify_token.
    destruct (auth.jwt_decode now token SECRET_KEY [auth.ALGORITHM])
      as [payload|e0]; [discriminate|].
    destruct (is_JWTError e0) eqn:Hj; [discriminate|].
    intros [= <-]. split; [exact Hj|reflexivity]. }
  split; [|split; [|split; [|split; [|split; [|split]]]]].
  - intros payload Hd. unfold auth.verify_token. rewrite Hd. reflexivity.
  - apply verify_token_decode_failed.
  - intros e Hv. apply verify_token_decode_failed.
    unfold auth.jwt_decode. rewrite Hv. reflexivity.
  - intros c n. apply verify_token_expired.
  - intros e He. apply Hraise in He as [Hj Hd]. split; [exact Hj|].
    destruct (jwt_decode_raises _ _ _ _ _ Hd) as [Hv|(c & Hv & Hc)];
      [left; exact Hv|right].
    exists c. split; [exact Hv|].
    destruct (validate_claims_raises _ _ _ Hc) as [Hj'|[He Hn]];
      [congruence|]. split; assumption.
  - intros e He. pose proof (encode_raises _ _ He) as ->.
    split; [reflexivity|].
    unfold auth.verify_token, auth.jwt_decode.
    rewrite (jws_verify_encodes _ _ _ _ He). reflexivity.
  - intros Hjws Hconv.
    destruct (auth.verify_token now token) as [r|e] eqn:Hr; [eauto|].
    destruct (Hraise e eq_refl) as [Hj Hd].
    destruct (jwt_decode_raises _ _ _ _ _ Hd) as [Hv|(c & Hv & Hc)].
    + rewrite (Hjws _ Hv) in Hj. discriminate.
    + destruct (validate_claims_raises _ _ _ Hc) as [Hj'|[_ Hn]];
        [congruence|]. destruct (Hn (Hconv _ Hv)).
Qed.

Lemma timegm_mono (a b : Z) : (a <= b)%Z -> (auth.timegm a <= auth.timegm b)%Z.
Proof. intros Hab. unfold auth.timegm. apply Z.div_le_mono; lia. Qed.

Lemma k_exp_not_other : ~ In auth.k_exp other_registered.
Proof. vm_compute. intuition discriminate. Qed.

Lemma k_sub_neq_exp : auth.k_exp <> auth.k_sub.
Proof. vm_compute. discriminate. Qed.

(** The claims [create_access_token] signs, for claims without [iat]
    and [nbf]: [exp] is an integer. *)
Lemma times_convertible_created (data : claims) (n : Z) :
  (forall k, In k other_registered -> data !! k = None) ->
  times_convertible (<[auth.k_exp := CInt n]> data).
Proof.
  intros Hother k v Hk. simpl in Hk.
  destruct Hk as [<-|[<-|[<-|[]]]].
  - rewrite lookup_insert_ne by (vm_compute; discriminate).
    rewrite Hother by (vm_compute; auto 10). discriminate.
  - rewrite lookup_insert_ne by (vm_compute; discriminate).
    rewrite Hother by (vm_compute; auto 10). discriminate.
  - rewrite lookup_insert_eq. intros [= <-]. apply convertible_int.
Qed.

(** The claims of a token [create_access_token] made, decoded at a
    moment that is not past its expiry. *)
Lemma create_then_decode (now now' : Z) (data : claims) (s : str) (delta : Z) :
  data !! auth.k_sub = Some (CStr s) ->
  (forall k, In k other_registered -> data !! k = None) ->
  (auth.timegm now' <= auth.timegm (now + delta))%Z ->
  auth.jwt_decode now'
    (jws_sign (<[auth.k_exp := CInt (auth.timegm (now + delta))]> data)
              SECRET_KEY auth.ALGORITHM)
    SECRET_KEY [auth.ALGORITHM]
  = Return (<[auth.k_exp := CInt (auth.timegm (now + delta))]> data).
Proof.
  intros Hsub Hother Hle.
  set (c := <[auth.k_exp := CInt (auth.timegm (now + delta))]> data).
  assert (Hk : forall k, In k other_registered -> c !! k = None).
  { intros k Hin. unfold c. rewrite lookup_insert_ne; [apply Hother, Hin|].
    intros <-. apply k_exp_not_other, Hin. }
  assert (Hexp : c !! auth.k_exp = Some (CInt (auth.timegm (now + delta))))
    by apply lookup_insert_eq.
  assert (Hs : c !! auth.k_sub = Some (CStr s)).
  { unfold c. rewrite lookup_insert_ne by apply k_sub_neq_exp. exact Hsub. }
  clearbody c.
  unfold auth.jwt_decode. rewrite jws_verify_sign. simpl.
  unfold auth.validate_claims, auth.validate_iat, auth.validate_nbf,
    auth.validate_exp, auth.validate_aud, auth.validate_iss,
    auth.validate_sub, auth.validate_jti, auth.validate_at_hash.
  rewrite (Hk auth.k_iat), (Hk auth.k_nbf), (Hk auth.k_aud), (Hk auth.k_jti),
    (Hk auth.k_at_hash) by (vm_compute; auto 10).
  rewrite Hexp, Hs. simpl.
  destruct (auth.timegm (now + delta) <? auth.timegm now')%Z eqn:E;
    [apply Z.ltb_lt in E; lia|]. reflexivity.
Qed.


End Tokens.

Lemma verify_token_raises_no_JWTError_witness :
  exists r, @auth.verify_token Toy.jose Toy.env 0 (lit "not.a.token") = Return r.
Proof.
  apply (proj2 (proj2 (proj2 (proj2 (proj2 (proj2
           (@verify_token_raises_no_JWTError Toy.jose toy_jose_spec Toy.env
              0%Z (lit "not.a.token")))))))).
  - vm_compute. intros e [= <-]. reflexivity.
  - vm_compute. discriminate.
Defined.

(** On a token that [encode] refuses, and on a signed token whose [exp]
    is null, [verify_token] raises. *)
Lemma verify_token_raises :
  @auth.verify_token Toy.jose Toy.env t0 [0xD800%N] = Raise UnicodeEncodeError
  /\ @auth.verify_token Toy.jose Toy.env t0
       (@jws_sign Toy.jose (<[auth.k_exp := CNull]> alice_claims)
          (@SECRET_KEY Toy.env) auth.ALGORITHM)
     = Raise TypeError.
Proof. split; vm_compute; reflexivity. Qed.

Lemma alice_claims_no_other k :
  In k other_registered -> alice_claims !! k = None.
Proof.
  intros Hk. unfold other_registered in Hk. simpl in Hk.
  repeat destruct Hk as [<-|Hk]; try contradiction;
    apply lookup_singleton_ne; literals_differ.
Defined.



(** ** Identity resolution *)

Section Identity.
Context `{JoseSpec} `{Env}.

Local Open Scope N_scope.

Lemma lower_char_letter (c l : N) :
  0x61 <= l <= 0x7A -> lower_char c = l <-> (c = l \/ c + 32 = l).
Proof.
  intros Hl. unfold lower_char.
  destruct (0x41 <=? c) eqn:E1; destruct (c <=? 0x5A) eqn:E2;
    destruct (0xC0 <=? c) eqn:E3; destruct (c <=? 0xDE) eqn:E4;
    destruct (c =? 0xD7) eqn:E5; simpl;
    rewrite ?N.leb_le, ?N.leb_gt, ?N.eqb_eq, ?N.eqb_neq in *; lia.
Qed.

Lemma lower_caseless (t s : str) :
  Forall (fun l => 0x61 <= l <= 0x7A) t ->
  Py.lower s = t <-> caseless t s.
Proof.
  intros Ht. revert s. induction Ht as [|l t Hl _ IH]; intros [|c s]; simpl.
  - split; [constructor|reflexivity].
  - split; [discriminate|inversion 1].
  - split; [discriminate|inversion 1].
  - split.
    + intros [= Hc Hs]. constructor.
      * apply lower_char_letter; assumption.
      * apply IH, Hs.
    + inversion 1 as [|? ? ? ? Hc Hs]; subst. f_equal.
      * apply lower_char_letter; assumption.
      * apply IH, Hs.
Qed.

Lemma bearer_letters : Forall (fun l => 0x61 <= l <= 0x7A) (lit "bearer").
Proof. repeat constructor; vm_compute; discriminate. Qed.

Lemma scheme_check (scheme : str) :
  Py.eqb (Py.lower scheme) (lit "bearer") = true <-> caseless (lit "bearer") scheme.
Proof. rewrite eqb_eq. apply lower_caseless, bearer_letters. Qed.

Lemma get_user_by_username_some (db : Store) (name : str) (u : User.t) :
  crud.get_user_by_username db name = Some u ->
  In u (users db) /\ User.username u = name.
Proof.
  unfold crud.get_user_by_username, first. intros Hf.
  apply find_some in Hf as [Hin Heq]. split; [exact Hin|].
  apply eqb_eq, Heq.
Qed.

Lemma get_user_by_username_none (db : Store) (name : str) :
  crud.get_user_by_username db name = None <->
  (forall u, In u (users db) -> User.username u <> name).
Proof.
  unfold crud.get_user_by_username, first. split.
  - intros Hf u Hin. apply eqb_neq. exact (find_none _ _ Hf u Hin).
  - intros Hall. destruct (find _ _) as [u|] eqn:Hf; [|reflexivity].
    apply find_some in Hf as [Hin Heq]. apply eqb_eq in Heq.
    destruct (Hall u Hin Heq).
Qed.





End Identity.

Example alice_resolved :
  @main.get_current_user Toy.jose Toy.env (t0 + 1000000) db0 (Some alice_header)
  = Return (Some alice).
Proof. vm_compute. reflexivity. Qed.

(** The scheme in lower case, and a tab in place of the space. *)
Example alice_resolved_lower_case_tab :
  @main.get_current_user Toy.jose Toy.env (t0 + 1000000) db0
    (Some (lit "bearer" ++ [0x09%N]
           ++ @auth.create_access_token Toy.jose Toy.env t0 alice_claims None))
  = Return (Some alice).
Proof. vm_compute. reflexivity. Qed.

Example three_words_resolve_nobody :
  @main.get_current_user Toy.jose Toy.env (t0 + 1000000) db0
    (Some (alice_header ++ lit " extra"))
  = Return None.
Proof. vm_compute. reflexivity. Qed.

Example other_scheme_resolves_nobody :
  @main.get_current_user Toy.jose Toy.env (t0 + 1000000) db0
    (Some (lit "Basic "
           ++ @auth.create_access_token Toy.jose Toy.env t0 alice_claims None))
  = Return None.
Proof. vm_compute. reflexivity. Qed.

(** Forty-nine hours after the token was made. *)
Example expired_token_resolves_nobody :
  @main.get_current_user Toy.jose Toy.env
    (t0 + auth.timedelta_hours 49) db0 (Some alice_header)
  = Return None.
Proof. vm_compute. reflexivity. Qed.




(** ** Login *)

Section Login.
Context `{Bcrypt} `{JoseSpec} `{Env}.


Lemma login_claims_sub (user : User.t) :
  main.login_claims user !! auth.k_sub = Some (CStr (User.username user)).
Proof.
  unfold main.login_claims.
  rewrite !lookup_insert_ne by literals_differ.
  apply lookup_insert_eq.
Qed.



Lemma login_claims_no_other (user : User.t) (k : str) :
  In k other_registered -> main.login_claims user !! k = None.
Proof.
  intros Hk. unfold other_registered in Hk. simpl in Hk.
  unfold main.login_claims.
  repeat destruct Hk as [<-|Hk]; try contradiction;
    rewrite !lookup_insert_ne by literals_differ;
    apply lookup_empty.
Qed.



End Login.



Example bob_wrong_password :
  @main.login Toy.bcrypt Toy.jose Toy.env t0 db0
    (LoginRequest.mk (lit "bob") (lit "alice-pw"))
  = Raise (HTTPException 401 "Incorrect username or password").
Proof. vm_compute. reflexivity. Qed.

(** ** Registration *)

Section Registration.
Context `{BcryptSpec}.

Lemma next_id_above (ids : list Z) (x : Z) :
  In x ids -> (x < next_id ids)%Z.
Proof.
  unfold next_id. induction ids as [|y ids IH]; simpl; [contradiction|].
  intros [->|Hx]; [lia|]. specialize (IH Hx). lia.
Qed.

Lemma next_id_fresh (ids : list Z) : ~ In (next_id ids) ids.
Proof. intros Hin. apply next_id_above in Hin. lia. Qed.

(** The INSERT of a user whose name and e-mail no row holds goes
    through and appends the row. *)
Lemma insert_user_fresh (now : Z) (name mail hashed : str) (r : UserRole)
    (db : Store) :
  (forall u, In u (users db) ->
             User.username u <> name /\ User.email u <> mail) ->
  insert_user now name mail hashed r db
  = (Return (User.mk (next_id (List.map User.id (users db))) name mail hashed
                     r now),
     mkStore (users db
              ++ [User.mk (next_id (List.map User.id (users db))) name mail
                          hashed r now])
             (advertisements db)).
Proof.
  intros Hfree. unfold insert_user. simpl.
  destruct (existsb _ (users db)) eqn:E; [|reflexivity].
  apply existsb_exists in E as [u [Hin Hdup]].
  destruct (Hfree u Hin) as [Hn Hm].
  apply orb_true_iff in Hdup as [Hdup|Hdup];
    [apply orb_true_iff in Hdup as [Hdup|Hdup]|].
  - apply Z.eqb_eq in Hdup.
    destruct (next_id_fresh (List.map User.id (users db))).
    rewrite <- Hdup. apply in_map, Hin.
  - apply eqb_eq in Hdup. contradiction.
  - apply eqb_eq in Hdup. contradiction.
Qed.

(** C5. POST /user fails with 400, and leaves the store as it was, when
    a stored user already has the requested username or the requested
    e-mail. Otherwise it adds exactly one user, with the requested name,
    e-mail and role, a fresh id and the hash of the password, and answers
    with a [UserResponse] whose body holds [username], [email], [id],
    [role] and [created_at], and no [hashed_password]. *)
Theorem create_user_unique_or_400 (salt : bytes) (now : Z) (db : Store)
    (user : UserCreate.t) :
  ((exists u, In u (users db)
              /\ (User.username u = UserCreate.username user
                  \/ User.email u = UserCreate.email user)) ->
   exists detail,
     main.create_user salt now db user
     = (Raise (HTTPException 400 detail), db))
  /\ (wf_str (UserCreate.password user) ->
      (forall u, In u (users db) ->
                 User.username u <> UserCreate.username user
                 /\ User.email u <> UserCreate.email user) ->
      exists new,
        main.create_user salt now db user
        = (Return (UserResponse.from_attributes new),
           mkStore (users db ++ [new]) (advertisements db))
        /\ User.username new = UserCreate.username user
        /\ User.email new = UserCreate.email user
        /\ User.role new = UserCreate.role user
        /\ User.created_at new = now
        /\ ~ In (User.id new) (List.map User.id (users db))
        /\ auth.verify_password (UserCreate.password user)
                                (User.hashed_password new) = Return true
        /\ List.map fst (UserResponse_body (UserResponse.from_attributes new))
           = ["username"; "email"; "id"; "role"; "created_at"]%string
        /\ ~ In "hashed_password"%string
             (List.map fst
                (UserResponse_body (UserResponse.from_attributes new)))).
Proof.
  split.
  - intros [u [Hin Hdup]]. unfold main.create_user.
    destruct (crud.get_user_by_username db (UserCreate.username user))
      as [v|] eqn:Hname; [eauto|].
    destruct (first _ (users db)) as [v|] eqn:Hmail; [eauto|].
    exfalso. destruct Hdup as [Hdup|Hdup].
    + eapply get_user_by_username_none; eauto.
    + pose proof (find_none _ _ Hmail u Hin) as Hne. simpl in Hne.
      apply eqb_neq in Hne. contradiction.
  - intros Hpw Hfree. unfold main.create_user.
    destruct (crud.get_user_by_username db (UserCreate.username user))
      as [v|] eqn:Hname.
    { apply get_user_by_username_some in Hname as [Hin Hv].
      destruct (Hfree v Hin) as [Hn _]. contradiction. }
    destruct (first _ (users db)) as [v|] eqn:Hmail.
    { apply find_some in Hmail as [Hin Hv]. apply eqb_eq in Hv.
      destruct (Hfree v Hin) as [_ Hm]. contradiction. }
    destruct (encode_total _ Hpw) as [b Hb].
    unfold crud.create_user.
    rewrite (get_password_hash_encoded salt _ _ Hb).
    rewrite (insert_user_fresh _ _ _ _ _ _ Hfree).
    eexists. split; [reflexivity|]. simpl.
    repeat split.
    + apply next_id_fresh.
    + rewrite (verify_password_hashed _ _ _ _ Hb).
      rewrite checkpw_hashpw by apply truncate72_length. reflexivity.
    + intros Hin. repeat destruct Hin as [Hin|Hin]; try discriminate.
      contradiction.
Qed.

End Registration.

Lemma create_user_unique_or_400_witness :
  (exists detail,
     @main.create_user Toy.bcrypt [] 400 db0 alice_again
     = (Raise (HTTPException 400 detail), db0))
  /\ (exists new,
        @main.create_user Toy.bcrypt [] 400 db0 dave_request
        = (Return (UserResponse.from_attributes new),
           mkStore (users db0 ++ [new]) (advertisements db0))
        /\ User.username new = lit "dave").
Proof.
  pose proof (@create_user_unique_or_400 Toy.bcrypt toy_bcrypt_spec [] 400%Z db0)
    as Hthm.
  split.
  - apply (proj1 (Hthm alice_again)).
    exists alice. split; [left; reflexivity|left; reflexivity].
  - destruct (proj2 (Hthm dave_request)) as [new [Hnew [Hname _]]].
    + unfold wf_str. repeat constructor.
    + intros u Hin. simpl in Hin.
      repeat destruct Hin as [<-|Hin]; try contradiction;
        split; vm_compute; discriminate.
    + exists new. split; assumption.
Defined.

Example dave_registered :
  @main.create_user Toy.bcrypt [] 400 db0 dave_request
  = (Return (UserResponse.mk (lit "dave") (lit "dave@example.org") 4 USER 400),
     mkStore [alice; bob; carol;
              User.mk 4 (lit "dave") (lit "dave@example.org") (lit "dave-pw")
                      USER 400]
             (advertisements db0)).
Proof. vm_compute. reflexivity. Qed.

(** ** Advertisements: update and delete *)

Section Ownership.

Lemma permission_check (ad : Advertisement.t) (caller : User.t) :
  negb (Advertisement.owner_id ad =? User.id caller)%Z
  && negb (role_eqb (User.role caller) ADMIN) = false
  <-> may_change ad caller.
Proof.
  unfold may_change.
  destruct (Z.eqb_spec (Advertisement.owner_id ad) (User.id caller));
    destruct (User.role caller); simpl; intuition congruence.
Qed.

Lemma no_null_accepted (u : AdvertisementUpdate.t) :
  no_null u ->
  existsb ad_assignment_refused (AdvertisementUpdate.model_dump_exclude_unset u)
  = false.
Proof.
  intros (Ht & Hd & Hp). unfold AdvertisementUpdate.model_dump_exclude_unset.
  destruct u as [[[t|]|] [[d|]|] [[p|]|]]; simpl in *; congruence.
Qed.

Lemma get_advertisement_some (db : Store) (i : Z) (ad : Advertisement.t) :
  crud.get_advertisement db i = Some ad ->
  In ad (advertisements db) /\ Advertisement.id ad = i.
Proof.
  unfold crud.get_advertisement, first. intros Hf.
  apply find_some in Hf as [Hin Hid]. split; [exact Hin|].
  apply Z.eqb_eq, Hid.
Qed.

Lemma set_ad_columns_id (pending : list ad_entry) (r : Advertisement.t) :
  Advertisement.id (set_ad_columns r pending) = Advertisement.id r
  /\ Advertisement.owner_id (set_ad_columns r pending) = Advertisement.owner_id r
  /\ Advertisement.created_at (set_ad_columns r pending)
     = Advertisement.created_at r.
Proof.
  unfold set_ad_columns. revert r.
  induction pending as [|a pending IH]; intros r; simpl; [auto|].
  destruct (IH (set_ad_column r a)) as (-> & -> & ->).
  destruct a as [[v|]|[v|]|[v|]]; simpl; auto.
Qed.

(** Reading back the row that was found, after the UPDATE of its key. *)
Lemma find_after_update (rows : list Advertisement.t) (i : Z)
    (ad : Advertisement.t) (pending : list ad_entry) :
  find (fun a => (Advertisement.id a =? i)%Z) rows = Some ad ->
  find (fun a => (Advertisement.id a =? i)%Z)
       (List.map (fun r => if (Advertisement.id r =? i)%Z
                           then set_ad_columns r pending else r) rows)
  = Some (set_ad_columns ad pending).
Proof.
  induction rows as [|r rows IH]; simpl; [discriminate|].
  destruct (Advertisement.id r =? i)%Z eqn:E.
  - intros [= ->]. simpl.
    rewrite (proj1 (set_ad_columns_id pending ad)), E. reflexivity.
  - intros Hf. simpl. rewrite E. apply IH, Hf.
Qed.

Lemma find_after_delete (rows : list Advertisement.t) (i : Z) :
  find (fun a => (Advertisement.id a =? i)%Z)
       (List.filter (fun r => negb (Advertisement.id r =? i)%Z) rows) = None.
Proof.
  induction rows as [|r rows IH]; simpl; [reflexivity|].
  destruct (Advertisement.id r =? i)%Z eqn:E; simpl; [exact IH|].
  rewrite E. exact IH.
Qed.

(** The amended C6. For a caller and an advertisement id, PATCH and
    DELETE /advertisement/{id} answer 404 when no advertisement has the
    id; answer 403 and leave the store as it was when the caller is
    neither the owner nor an admin; and otherwise DELETE removes the
    advertisement and succeeds, and PATCH, for a request that sets no
    field to null, writes the supplied fields to the advertisement and
    succeeds with the updated record. *)
Theorem advertisement_change_authorized (db : Store) (advertisement_id : Z)
    (advertisement_update : AdvertisementUpdate.t) (current_user : User.t) :
  (crud.get_advertisement db advertisement_id = None ->
   main.update_advertisement db advertisement_id advertisement_update
                             current_user
   = (Raise (HTTPException 404 "Advertisement not found"), db)
   /\ main.delete_advertisement db advertisement_id current_user
      = (Raise (HTTPException 404 "Advertisement not found"), db))
  /\ (forall ad,
        crud.get_advertisement db advertisement_id = Some ad ->
        ~ may_change ad current_user ->
        (exists detail,
           main.update_advertisement db advertisement_id advertisement_update
                                     current_user
           = (Raise (HTTPException 403 detail), db))
        /\ (exists detail,
              main.delete_advertisement db advertisement_id current_user
              = (Raise (HTTPException 403 detail), db)))
  /\ (forall ad,
        crud.get_advertisement db advertisement_id = Some ad ->
        may_change ad current_user ->
        (exists db',
           main.delete_advertisement db advertisement_id current_user
           = (Return "Advertisement deleted successfully"%string, db')
           /\ users db' = users db
           /\ advertisements db'
              = List.filter
                  (fun r => negb (Advertisement.id r =? advertisement_id)%Z)
                  (advertisements db)
           /\ crud.get_advertisement db' advertisement_id = None)
        /\ (no_null advertisement_update ->
            exists db',
              main.update_advertisement db advertisement_id
                                        advertisement_update current_user
              = (Return (AdvertisementResponse.from_attributes
                           (set_ad_columns ad
                              (AdvertisementUpdate.model_dump_exclude_unset
                                 advertisement_update))),
                 db')
              /\ users db' = users db
              /\ advertisements db'
                 = List.map
                     (fun r =>
                        if (Advertisement.id r =? advertisement_id)%Z
                        then set_ad_columns r
                               (AdvertisementUpdate.model_dump_exclude_unset
                                  advertisement_update)
                        else r)
                     (advertisements db)
              /\ crud.get_advertisement db' advertisement_id
                 = Some (set_ad_columns ad
                           (AdvertisementUpdate.model_dump_exclude_unset
                              advertisement_update)))).
Proof.
  split; [|split].
  - intros Hnone. unfold main.update_advertisement, main.delete_advertisement.
    rewrite Hnone. split; reflexivity.
  - intros ad Hsome Hno.
    unfold main.update_advertisement, main.delete_advertisement.
    rewrite Hsome.
    destruct (negb (Advertisement.owner_id ad =? User.id current_user)%Z
              && negb (role_eqb (User.role current_user) ADMIN)) eqn:E.
    + split; eauto.
    + apply permission_check in E. contradiction.
  - intros ad Hsome Hmay.
    pose proof (get_advertisement_some _ _ _ Hsome) as [Hin Hid].
    apply permission_check in Hmay.
    unfold main.update_advertisement, main.delete_advertisement.
    rewrite Hsome, Hmay.
    unfold crud.delete_advertisement, crud.update_advertisement.
    rewrite Hsome, Hid. split.
    + eexists. split; [reflexivity|]. simpl. repeat split.
      unfold crud.get_advertisement, first. simpl. apply find_after_delete.
    + intros Hnn. unfold update_ad_row.
      rewrite (no_null_accepted _ Hnn).
      unfold crud.get_advertisement at 1, first. simpl.
      rewrite (find_after_update _ _ ad) by exact Hsome.
      eexists. split; [reflexivity|]. simpl. repeat split.
      unfold crud.get_advertisement, first. simpl.
      apply find_after_update. exact Hsome.
Qed.

End Ownership.

Example carol_may_not_patch_bike :
  main.update_advertisement db0 1
    (AdvertisementUpdate.mk (Some (Some (lit "Bike"))) None None) carol
  = (Raise (HTTPException 403
              "Not enough permissions to update this advertisement"), db0).
Proof. vm_compute. reflexivity. Qed.

Example admin_patches_bike :
  main.update_advertisement db0 1
    (AdvertisementUpdate.mk (Some (Some (lit "Bike"))) None
                            (Some (Some 20%float))) bob
  = (Return (AdvertisementResponse.mk (lit "Bike") (lit "A red bike") 20%float
                                      1 1 110),
     mkStore (users db0)
             [Advertisement.mk 1 (lit "Bike") (lit "A red bike") 20%float 110 1;
              ad_sofa; ad_book]).
Proof. vm_compute. reflexivity. Qed.

Example alice_deletes_bike :
  main.delete_advertisement db0 1 alice
  = (Return "Advertisement deleted successfully"%string,
     mkStore (users db0) [ad_sofa; ad_book]).
Proof. vm_compute. reflexivity. Qed.

Example missing_advertisement :
  main.delete_advertisement db0 9 bob
  = (Raise (HTTPException 404 "Advertisement not found"), db0).
Proof. vm_compute. reflexivity. Qed.

(** The counterexample to C6: the owner's PATCH that sets the title to
    null is not performed. The store refuses the NULL, the handler raises
    [IntegrityError] and the advertisement stays as it was. *)
Lemma owner_patch_null_title_fails :
  crud.get_advertisement db0 1 = Some ad_bike
  /\ Advertisement.owner_id ad_bike = User.id alice
  /\ main.update_advertisement db0 1
       (AdvertisementUpdate.mk (Some None) None None) alice
     = (Raise IntegrityError, db0).
Proof. repeat split. Qed.

(** ** Search *)

Section Search.

Local Open Scope N_scope.

Lemma prefixb_spec (x t : str) :
  prefixb x t = true <-> exists post, t = x ++ post.
Proof.
  revert t. induction x as [|a x IH]; intros t; simpl.
  - split; eauto.
  - destruct t as [|b t].
    + split; [discriminate|]. intros [post Hp]. discriminate.
    + rewrite andb_true_iff, N.eqb_eq, IH. split.
      * intros [-> [post ->]]. eauto.
      * intros [post [= -> ->]]. eauto.
Qed.

Lemma substringb_spec (x t : str) :
  substringb x t = true <-> exists pre post, t = pre ++ x ++ post.
Proof.
  induction t as [|c t IH]; simpl.
  - rewrite orb_false_r, prefixb_spec. split.
    + intros [post Hp]. exists [], post. exact Hp.
    + intros [pre [post Hp]]. destruct pre; [|discriminate]. eauto.
  - rewrite orb_true_iff, IH. split.
    + intros [Hp|[pre [post ->]]].
      * change (prefixb x (c :: t) = true) in Hp.
        apply prefixb_spec in Hp as [post Hp]. exists [], post. exact Hp.
      * exists (c :: pre), post. reflexivity.
    + intros [[|c' pre] [post Hp]].
      * left. change (prefixb x (c :: t) = true).
        apply prefixb_spec. eauto.
      * right. injection Hp as -> ->. eauto.
Qed.

Lemma like_percent_nil (p : str) : crud.like (0x25 :: p) [] = crud.like p [].
Proof. simpl. apply orb_false_r. Qed.

Lemma like_percent_cons (p : str) (c : N) (t : str) :
  crud.like (0x25 :: p) (c :: t)
  = crud.like p (c :: t) || crud.like (0x25 :: p) t.
Proof. reflexivity. Qed.

Lemma like_any (t : str) : crud.like [0x25] t = true.
Proof.
  induction t as [|c t IH].
  - reflexivity.
  - rewrite like_percent_cons, IH. apply orb_true_r.
Qed.

(** A pattern without wildcards, then [%]: the text starts with it. *)
Lemma like_literal_prefix (x t : str) :
  no_wildcard x -> crud.like (x ++ [0x25]) t = prefixb x t.
Proof.
  intros Hx. revert t. induction Hx as [|a x [Hp Hu] _ IH]; intros t.
  - apply like_any.
  - simpl. apply N.eqb_neq in Hp. apply N.eqb_neq in Hu. rewrite Hp, Hu.
    destruct t as [|b t]; [reflexivity|]. simpl. rewrite IH. reflexivity.
Qed.

(** For a filter without wildcards [contains] is the substring test. *)
Lemma contains_substring (column other : str) :
  no_wildcard other -> crud.contains column other = substringb other column.
Proof.
  intros Ho. unfold crud.contains. simpl app.
  induction column as [|c column IH].
  - rewrite like_percent_nil, like_literal_prefix by exact Ho.
    simpl. symmetry. apply orb_false_r.
  - rewrite like_percent_cons, IH, like_literal_prefix by exact Ho.
    reflexivity.
Qed.

Lemma filter_filter {A} (f g : A -> bool) (l : list A) :
  List.filter f (List.filter g l) = List.filter (fun x => g x && f x) l.
Proof.
  induction l as [|x l IH]; simpl; [reflexivity|].
  destruct (g x); simpl; [destruct (f x)|]; rewrite IH; reflexivity.
Qed.

Lemma filter_all {A} (f : A -> bool) (l : list A) :
  (forall x, f x = true) -> List.filter f l = l.
Proof.
  intros Hf. induction l as [|x l IH]; simpl; [reflexivity|].
  rewrite Hf, IH. reflexivity.
Qed.

Lemma substring_stage (field : Advertisement.t -> str) (filter : option str)
    (rows : list Advertisement.t) :
  (forall t, filter = Some t -> no_wildcard t) ->
  match filter with
  | Some t =>
      if truthy t then List.filter (fun a => crud.contains (field a) t) rows
      else rows
  | None => rows
  end
  = List.filter (fun a => match filter with
                          | Some t => substringb t (field a)
                          | None => true
                          end) rows.
Proof.
  intros Hw. destruct filter as [t|].
  - destruct t as [|c t]; simpl truthy; cbv iota.
    + symmetry. apply filter_all. intros a. destruct (field a); reflexivity.
    + apply filter_ext. intros a. apply contains_substring, Hw. reflexivity.
  - symmetry. apply filter_all. reflexivity.
Qed.

Lemma bound_stage (ok : float -> Advertisement.t -> bool) (bound : option float)
    (rows : list Advertisement.t) :
  match bound with
  | Some b => List.filter (ok b) rows
  | None => rows
  end
  = List.filter (fun a => match bound with
                          | Some b => ok b a
                          | None => true
                          end) rows.
Proof.
  destruct bound as [b|]; [reflexivity|].
  symmetry. apply filter_all. reflexivity.
Qed.

(** The amended C7. For title and description filters that hold neither
    a percent sign nor an underscore, [search_advertisements] returns, in
    storage order, exactly the stored advertisements that satisfy every
    supplied filter: [title] and [description] are case-sensitive
    substring tests, [min_price] and [max_price] inclusive bounds on the
    price; a filter that is not supplied asks nothing, and without any
    filter every stored advertisement is returned. *)
Theorem search_returns_matching (db : Store) (title description : option str)
    (min_price max_price : option float) :
  (forall t, title = Some t -> no_wildcard t) ->
  (forall d, description = Some d -> no_wildcard d) ->
  crud.search_advertisements db title description min_price max_price
  = List.filter (satisfies title description min_price max_price)
                (advertisements db)
  /\ (forall a needle,
        title = Some needle ->
        (title_ok title a = true <->
         exists pre post, Advertisement.title a = pre ++ needle ++ post))
  /\ (forall a needle,
        description = Some needle ->
        (description_ok description a = true <->
         exists pre post, Advertisement.description a = pre ++ needle ++ post))
  /\ crud.search_advertisements db None None None None = advertisements db.
Proof.
  intros Ht Hd. split; [|split; [|split]].
  - unfold crud.search_advertisements.
    rewrite (substring_stage Advertisement.title title _ Ht).
    rewrite (substring_stage Advertisement.description description _ Hd).
    rewrite (bound_stage (fun lo a => PrimFloat.leb lo (Advertisement.price a))
                         min_price).
    rewrite (bound_stage (fun hi a => PrimFloat.leb (Advertisement.price a) hi)
                         max_price).
    rewrite !filter_filter. apply filter_ext. intros a.
    unfold satisfies, title_ok, description_ok, min_price_ok, max_price_ok.
    rewrite !andb_assoc. reflexivity.
  - intros a needle ->. apply substringb_spec.
  - intros a needle ->. apply substringb_spec.
  - reflexivity.
Qed.

(** C10. The empty string as title filter, or as description filter,
    gives the list that the call without that filter gives: both filters
    are applied on truthiness, and the empty string is falsy. *)
Theorem search_empty_string_is_no_filter (db : Store)
    (title description : option str) (min_price max_price : option float) :
  crud.search_advertisements db (Some []) description min_price max_price
  = crud.search_advertisements db None description min_price max_price
  /\ crud.search_advertisements db title (Some []) min_price max_price
     = crud.search_advertisements db title None min_price max_price.
Proof. split; reflexivity. Qed.

End Search.

Lemma search_returns_matching_witness :
  crud.search_advertisements db0 (Some (lit "o")) None (Some 10%float)
                             (Some 50%float)
  = List.filter (satisfies (Some (lit "o")) None (Some 10%float) (Some 50%float))
                (advertisements db0).
Proof.
  apply (search_returns_matching db0 (Some (lit "o")) None (Some 10%float)
                                 (Some 50%float)).
  - intros t [= <-]. repeat constructor; vm_compute; discriminate.
  - discriminate.
Defined.

Example search_all :
  crud.search_advertisements db0 None None None None
  = [ad_bike; ad_sofa; ad_book].
Proof. reflexivity. Qed.

Example search_price_range :
  crud.search_advertisements db0 None None (Some 10%float) (Some 25%float)
  = [ad_bike; ad_book].
Proof. vm_compute. reflexivity. Qed.

Example search_is_case_sensitive :
  crud.search_advertisements db0 (Some (lit "sofa")) None None None = [].
Proof. vm_compute. reflexivity. Qed.

Example search_price_and_title :
  crud.search_advertisements db0 (Some (lit "o")) None (Some 10%float)
                             (Some 50%float)
  = [ad_book].
Proof. vm_compute. reflexivity. Qed.

(** The counterexample to C7: the title filter "a_c" returns the
    advertisement titled "abc bike", of which it is no substring, and the
    description filter "%" returns every advertisement, also the one whose
    description holds no percent sign. *)
Lemma search_underscore_is_wildcard :
  crud.search_advertisements db0 (Some (lit "a_c")) None None None = [ad_bike]
  /\ ~ (exists pre post,
          Advertisement.title ad_bike = pre ++ lit "a_c" ++ post)
  /\ crud.search_advertisements db0 None (Some (lit "%")) None None
     = [ad_bike; ad_sofa; ad_book]
  /\ ~ (exists pre post,
          Advertisement.description ad_bike = pre ++ lit "%" ++ post).
Proof.
  split; [vm_compute; reflexivity|]. split.
  - intros Hsub. apply substringb_spec in Hsub. vm_compute in Hsub.
    discriminate.
  - split; [vm_compute; reflexivity|].
    intros Hsub. apply substringb_spec in Hsub. vm_compute in Hsub.
    discriminate.
Qed.

(** ** Partial update of a user *)

Section UserUpdateFrame.
Context `{Bcrypt}.

Lemma same_but_email_refl (u : User.t) : same_but_email u u.
Proof. repeat split. Qed.

Lemma only_email_changed_refl (pk : Z) (db : Store) :
  only_email_changed pk db db.
Proof.
  split; [reflexivity|]. apply Forall2_same_length_lookup_2; [reflexivity|].
  intros i x y Hx Hy. rewrite Hx in Hy. injection Hy as <-.
  split; [apply same_but_email_refl|reflexivity].
Qed.

Lemma set_email_same (r : User.t) (v : str) :
  same_but_email r (set_user_columns r [(f_email, Some v)]).
Proof. repeat split. Qed.

Lemma update_email_frame (pk : Z) (v : str) (rows : list User.t) :
  Forall2 (fun old new => same_but_email old new
                          /\ (User.id old <> pk -> new = old))
          rows
          (List.map (fun r => if (User.id r =? pk)%Z
                              then set_user_columns r [(f_email, Some v)]
                              else r) rows).
Proof.
  induction rows as [|r rows IH]; simpl; constructor; [|exact IH].
  destruct (Z.eqb_spec (User.id r) pk) as [Heq|Hne].
  - split; [apply set_email_same|]. intros Hne. contradiction.
  - split; [apply same_but_email_refl|reflexivity].
Qed.

Lemma find_after_email_update (rows : list User.t) (pk : Z) (u : User.t)
    (v : str) :
  find (fun r => (User.id r =? pk)%Z) rows = Some u ->
  find (fun r => (User.id r =? pk)%Z)
       (List.map (fun r => if (User.id r =? pk)%Z
                           then set_user_columns r [(f_email, Some v)]
                           else r) rows)
  = Some (set_user_columns u [(f_email, Some v)]).
Proof.
  induction rows as [|r rows IH]; simpl; [discriminate|].
  destruct (User.id r =? pk)%Z eqn:E.
  - intros [= ->]. simpl. rewrite E. reflexivity.
  - intros Hf. simpl. rewrite E. apply IH, Hf.
Qed.

(** C8. For an existing user, an update that supplies only the e-mail
    changes nothing in the store but that user's e-mail: the username,
    role, hashed password, id and creation time of the row stay as they
    were, as do all other rows. When [update_user] returns, the row holds
    the supplied e-mail; when the store refuses the value (null, or the
    e-mail of another user) nothing is changed. The same holds of the
    store PATCH /user/{id} leaves. *)
Theorem update_email_changes_only_email (salt : bytes) (db : Store)
    (user_id : Z) (new_email : option str) (u : User.t) :
  crud.get_user_by_id db user_id = Some u ->
  let user_update := UserUpdate.mk None (Some new_email) None in
  exists r db',
    crud.update_user salt db user_id user_update = (r, db')
    /\ only_email_changed user_id db db'
    /\ (forall e, r = Raise e -> db' = db)
    /\ (forall x, r = Return x ->
          exists v u',
            new_email = Some v /\ x = Some u'
            /\ crud.get_user_by_id db' user_id = Some u'
            /\ User.email u' = v
            /\ same_but_email u u')
    /\ (forall current_user,
          let db'' := snd (main.update_user salt db user_id user_update
                                            current_user) in
          db'' = db \/ db'' = db').
Proof.
  intros Hu user_update.
  assert (Hid : User.id u = user_id).
  { unfold crud.get_user_by_id, first in Hu.
    apply find_some in Hu as [_ Hid]. apply Z.eqb_eq, Hid. }
  assert (Hcrud : crud.update_user salt db user_id user_update
                  = match update_user_row user_id [(f_email, new_email)] db with
                    | (Raise e, db') => (Raise e, db')
                    | (Return _, db') =>
                        (Return (crud.get_user_by_id db' user_id), db')
                    end).
  { unfold crud.update_user. rewrite Hu, Hid. reflexivity. }
  assert (Hmain : forall current_user db',
            snd (crud.update_user salt db user_id user_update) = db' ->
            snd (main.update_user salt db user_id user_update current_user) = db
            \/ snd (main.update_user salt db user_id user_update current_user)
               = db').
  { intros current_user db' Hsnd. unfold main.update_user.
    destruct (negb _ && negb _); [left; reflexivity|]. right.
    destruct (crud.update_user salt db user_id user_update) as [[[x|]|e] d];
      simpl in *; exact Hsnd. }
  rewrite Hcrud in *. unfold update_user_row in *.
  destruct (existsb (user_assignment_refused db user_id)
                    [(f_email, new_email)]) eqn:Href.
  - exists (Raise IntegrityError), db. split; [reflexivity|].
    split; [apply only_email_changed_refl|]. split; [reflexivity|].
    split; [discriminate|].
    intros current_user. apply Hmain. reflexivity.
  - destruct new_email as [v|]; [|discriminate].
    eexists _, _. split; [reflexivity|]. split; [|split; [|split]].
    + split; [reflexivity|]. simpl. apply update_email_frame.
    + discriminate.
    + intros x [= <-]. exists v, (set_user_columns u [(f_email, Some v)]).
      pose proof (find_after_email_update (users db) user_id u v Hu) as Hfind.
      split; [reflexivity|]. split; [exact Hfind|].
      split; [exact Hfind|]. split; [reflexivity|apply set_email_same].
    + intros current_user. apply Hmain. reflexivity.
Qed.

End UserUpdateFrame.

Lemma update_email_changes_only_email_witness :
  exists r db',
    @crud.update_user Toy.bcrypt [] db0 3
      (UserUpdate.mk None (Some (Some (lit "carol@new.example"))) None)
    = (r, db')
    /\ only_email_changed 3 db0 db'.
Proof.
  destruct (@update_email_changes_only_email Toy.bcrypt [] db0 3%Z
              (Some (lit "carol@new.example")) carol eq_refl)
    as (r & db' & Hupd & Hframe & _).
  exists r, db'. split; assumption.
Defined.

Example carol_new_email :
  @crud.update_user Toy.bcrypt [] db0 3
    (UserUpdate.mk None (Some (Some (lit "carol@new.example"))) None)
  = (Return (Some (User.mk 3 (lit "carol") (lit "carol@new.example")
                           (lit "carol-pw") USER 300)),
     mkStore [alice; bob;
              User.mk 3 (lit "carol") (lit "carol@new.example")
                      (lit "carol-pw") USER 300]
             (advertisements db0)).
Proof. vm_compute. reflexivity. Qed.

(** A new password is stored hashed; [Toy.bcrypt] keeps ASCII as it is. *)
Example carol_new_password :
  @crud.update_user Toy.bcrypt [] db0 3
    (UserUpdate.mk None None (Some (Some (lit "new-pw"))))
  = (Return (Some (User.mk 3 (lit "carol") (lit "carol@example.org")
                           (lit "new-pw") USER 300)),
     mkStore [alice; bob;
              User.mk 3 (lit "carol") (lit "carol@example.org")
                      (lit "new-pw") USER 300]
             (advertisements db0)).
Proof. vm_compute. reflexivity. Qed.

Example carol_taken_email :
  @crud.update_user Toy.bcrypt [] db0 3
    (UserUpdate.mk None (Some (Some (lit "bob@example.org"))) None)
  = (Raise IntegrityError, db0).
Proof. vm_compute. reflexivity. Qed.

(** * Further properties of the code *)

(** ** Token lifetime *)

Section TokenLifetime.
Context `{JoseSpec} `{Env}.

(** X1. [create_access_token] with an expiry override, for claims whose
    [sub] is a string and that hold none of the other names python-jose
    validates: a delta other than zero, with [now + delta] a moment a
    [datetime] can hold, sets [exp] to the whole seconds of
    [now + delta]; the token verifies up to that moment and is refused
    from the next second on (a negative delta gives a token that is
    refused at once); a delta of zero is falsy, and the token is the one
    of the default 48 hours. *)
Theorem expiry_override (now : Z) (data : claims) (s : str) (delta : Z) :
  data !! auth.k_sub = Some (CStr s) ->
  (forall k, In k other_registered -> data !! k = None) ->
  (delta <> 0%Z ->
   is_datetime (now + delta) ->
   (forall now', (now' <= now + delta)%Z ->
      auth.verify_token now'
        (auth.create_access_token now data (Some delta))
      = Return (Some (<[auth.k_exp := CInt (auth.timegm (now + delta))]> data)))
   /\ (forall now', (auth.timegm (now + delta) < auth.timegm now')%Z ->
         auth.verify_token now'
           (auth.create_access_token now data (Some delta))
         = Return None)
   /\ (delta <= -1000000 ->
       auth.verify_token now
         (auth.create_access_token now data (Some delta))
       = Return None)%Z)
  /\ auth.create_access_token now data (Some 0%Z)
     = auth.create_access_token now data None.
Proof.
  intros Hsub Hother. split; [|reflexivity].
  intros Hd _.
  assert (Htoken : auth.create_access_token now data (Some delta)
    = jws_sign (<[auth.k_exp := CInt (auth.timegm (now + delta))]> data)
               SECRET_KEY auth.ALGORITHM).
  { unfold auth.create_access_token.
    destruct (Z.eqb_spec delta 0); [contradiction|reflexivity]. }
  assert (Hpast : forall now',
            (auth.timegm (now + delta) < auth.timegm now')%Z ->
            auth.verify_token now'
              (auth.create_access_token now data (Some delta))
            = Return None).
  { intros now' Hlt. rewrite Htoken.
    apply (verify_token_expired now' _
             (<[auth.k_exp := CInt (auth.timegm (now + delta))]> data)
             (auth.timegm (now + delta))).
    - apply jws_verify_sign.
    - apply times_convertible_created, Hother.
    - apply lookup_insert_eq.
    - exact Hlt. }
  split; [|split].
  - intros now' Hle. rewrite Htoken. unfold auth.verify_token.
    rewrite (create_then_decode now now' data s delta Hsub Hother);
      [reflexivity|].
    apply timegm_mono. exact Hle.
  - exact Hpast.
  - intros Hneg. apply Hpast. unfold auth.timegm.
    assert ((now + delta) / 1000000 <= (now - 1000000) / 1000000)%Z
      by (apply Z.div_le_mono; lia).
    replace (now - 1000000)%Z with (now + (-1) * 1000000)%Z in * by lia.
    rewrite Z.div_add in * by lia. lia.
Qed.

(** X2. The token POST /login issues carries four claims and no other:
    [sub], [user_id], [role] and [exp]; nothing else of the user's record,
    such as the e-mail or the password hash, is in it. *)
Theorem login_token_has_four_claims (now : Z) (user : User.t) :
  exists payload : claims,
    jws_verify (auth.create_access_token now (main.login_claims user) None)
               SECRET_KEY [auth.ALGORITHM] = Return payload
    /\ (forall k, is_Some (payload !! k) <->
                  In k [auth.k_sub; main.k_user_id; main.k_role; auth.k_exp])
    /\ payload !! auth.k_exp
       = Some (CInt (auth.timegm (now + auth.timedelta_hours 48))).
Proof.
  eexists. split; [apply jws_verify_sign|]. split.
  - intros k. unfold main.login_claims. simpl In.
    destruct (decide (k = auth.k_exp)) as [->|He].
    { rewrite lookup_insert_eq. split; [tauto|eauto]. }
    rewrite lookup_insert_ne by congruence.
    destruct (decide (k = main.k_role)) as [->|Hr].
    { rewrite lookup_insert_eq. split; [tauto|eauto]. }
    rewrite lookup_insert_ne by congruence.
    destruct (decide (k = main.k_user_id)) as [->|Hu].
    { rewrite lookup_insert_eq. split; [tauto|eauto]. }
    rewrite lookup_insert_ne by congruence.
    destruct (decide (k = auth.k_sub)) as [->|Hs].
    { rewrite lookup_insert_eq. split; [tauto|eauto]. }
    rewrite lookup_insert_ne by congruence. rewrite lookup_empty.
    split; [intros [x Hx]; discriminate|].
    intros [?|[?|[?|[?|[]]]]]; congruence.
  - apply lookup_insert_eq.
Qed.

End TokenLifetime.

Lemma expiry_override_witness :
  @auth.verify_token Toy.jose Toy.env (t0 + 60000000)
    (@auth.create_access_token Toy.jose Toy.env t0 alice_claims (Some 60000000%Z))
  = Return (Some (<[auth.k_exp := CInt (auth.timegm (t0 + 60000000))]>
                    alice_claims)).
Proof.
  destruct (@expiry_override Toy.jose toy_jose_spec Toy.env t0 alice_claims
              (lit "alice") 60000000%Z (lookup_singleton_eq _ _)
              alice_claims_no_other) as [Hset _].
  destruct Hset as [Hok _]; [discriminate|vm_compute; split; discriminate|].
  apply Hok. lia.
Defined.

Lemma login_token_has_four_claims_witness :
  exists payload : claims,
    @jws_verify Toy.jose
      (@auth.create_access_token Toy.jose Toy.env t0 (main.login_claims alice)
                                 None)
      (@SECRET_KEY Toy.env) [auth.ALGORITHM] = Return payload
    /\ payload !! lit "email" = None.
Proof.
  destruct (@login_token_has_four_claims Toy.jose toy_jose_spec Toy.env t0 alice)
    as [payload [Hv [Hkeys _]]].
  exists payload. split; [exact Hv|].
  destruct (payload !! lit "email") as [x|] eqn:E; [|reflexivity].
  assert (Hin : In (lit "email")
                   [auth.k_sub; main.k_user_id; main.k_role; auth.k_exp])
    by (apply Hkeys; eauto).
  simpl in Hin. exfalso.
  repeat destruct Hin as [Hin|Hin]; try contradiction;
    vm_compute in Hin; discriminate.
Defined.

(** ** Identity on the routes *)

Section Routes.
Context `{Bcrypt} `{JoseSpec} `{Env}.

Lemma no_identity_gives_none (now : Z) (db : Store) (authorization : option str) :
  no_identity now db authorization ->
  main.get_current_user now db authorization = Return None.
Proof.
  intros Hno. unfold main.get_current_user.
  destruct Hno as [ | h Hlen | h scheme token Hsplit Hscheme
                  | h scheme token Hsplit Hv
                  | h scheme token payload Hsplit Hv Hsub
                  | h scheme token payload sub Hsplit Hv Hsub Hnone ].
  - reflexivity.
  - destruct (Py.split h) as [|a [|b [|]]]; try reflexivity.
    simpl in Hlen. congruence.
  - rewrite Hsplit.
    destruct (Py.eqb (Py.lower scheme) (lit "bearer")) eqn:E; [|reflexivity].
    apply scheme_check in E. contradiction.
  - rewrite Hsplit, Hv.
    destruct (Py.eqb (Py.lower scheme) (lit "bearer")); reflexivity.
  - rewrite Hsplit, Hv. simpl. rewrite Hsub.
    destruct (Py.eqb (Py.lower scheme) (lit "bearer")); reflexivity.
  - rewrite Hsplit, Hv. simpl. rewrite Hsub.
    apply get_user_by_username_none in Hnone. rewrite Hnone.
    destruct (Py.eqb (Py.lower scheme) (lit "bearer")); reflexivity.
Qed.




Lemma split_from_word (s cur : str) :
  Forall (fun c => isspace c = false) s ->
  Py.split_from cur s = if truthy (cur ++ s) then [cur ++ s] else [].
Proof.
  intros Hs. revert cur. induction Hs as [|c s Hc _ IH]; intros cur; simpl.
  - rewrite app_nil_r. reflexivity.
  - rewrite Hc, IH, <- app_assoc. reflexivity.
Qed.

(** The header a client builds from a token of one word. *)
Lemma split_bearer_word (token : str) :
  one_word token -> Py.split (lit "Bearer " ++ token) = [lit "Bearer"; token].
Proof.
  intros [Hne Hword]. unfold Py.split.
  change (lit "Bearer ") with [66; 101; 97; 114; 101; 114; 32]%N.
  cbn. rewrite (split_from_word token [] Hword). simpl.
  destruct token; [contradiction|reflexivity].
Qed.

(** X4. The token of a successful POST /login, sent back as
    [Authorization: Bearer <token>] at any moment before its expiry 48
    hours later, resolves to the user who logged in. The token is one
    word, as a signed token is. *)
Theorem login_token_resolves (now now' : Z) (db : Store)
    (login_data : LoginRequest.t) (resp : TokenResponse.t) :
  main.login now db login_data = Return resp ->
  one_word (TokenResponse.access_token resp) ->
  (now' < now + auth.timedelta_hours 48)%Z ->
  exists u,
    crud.authenticate_user db (LoginRequest.username login_data)
                           (LoginRequest.password login_data)
    = Return (Some u)
    /\ User.username u = LoginRequest.username login_data
    /\ TokenResponse.token_type resp = lit "bearer"
    /\ main.get_current_user now' db
         (Some (lit "Bearer " ++ TokenResponse.access_token resp))
       = Return (Some u).
Proof.
  intros Hlogin Hword Hbefore. unfold main.login in Hlogin.
  destruct (crud.authenticate_user db (LoginRequest.username login_data)
              (LoginRequest.password login_data)) as [[u|]|e] eqn:Hauth;
    simpl in Hlogin; try discriminate.
  injection Hlogin as <-.
  cbn [TokenResponse.access_token TokenResponse.token_type] in *.
  assert (Hfound : crud.get_user_by_username db
                     (LoginRequest.username login_data) = Some u).
  { unfold crud.authenticate_user in Hauth.
    destruct (crud.get_user_by_username db (LoginRequest.username login_data))
      as [v|]; [|discriminate].
    destruct (auth.verify_password _ _) as [[|]|]; simpl in Hauth;
      congruence. }
  pose proof (get_user_by_username_some _ _ _ Hfound) as [_ Hname].
  exists u. split; [reflexivity|]. split; [exact Hname|].
  split; [reflexivity|].
  unfold main.get_current_user. rewrite (split_bearer_word _ Hword).
  replace (Py.eqb (Py.lower (lit "Bearer")) (lit "bearer")) with true
    by (vm_compute; reflexivity).
  simpl negb. cbv iota.
  unfold auth.verify_token, auth.create_access_token.
  rewrite (create_then_decode now now' (main.login_claims u)
             (User.username u) _ (login_claims_sub u)
             (login_claims_no_other u)).
  - simpl. rewrite lookup_insert_ne by literals_differ.
    rewrite login_claims_sub, Hname, Hfound. reflexivity.
  - apply timegm_mono.
    change (auth.timedelta_hours auth.ACCESS_TOKEN_EXPIRE_HOURS)
      with (auth.timedelta_hours 48). lia.
Qed.

End Routes.


Lemma login_token_resolves_witness :
  exists u,
    User.username u = lit "alice"
    /\ @main.get_current_user Toy.jose Toy.env (t0 + 3600000000) db0
         (Some (lit "Bearer "
                ++ @auth.create_access_token Toy.jose Toy.env t0
                     (main.login_claims alice) None))
       = Return (Some u).
Proof.
  destruct (@login_token_resolves Toy.bcrypt Toy.jose toy_jose_spec Toy.env
              t0 (t0 + 3600000000)%Z db0 alice_login
              (TokenResponse.mk
                 (@auth.create_access_token Toy.jose Toy.env t0
                    (main.login_claims alice) None)
                 (lit "bearer"))) as (u & _ & Hname & _ & Hres);
    [| | |exists u; split; [exact Hname|exact Hres]].
  - vm_compute. reflexivity.
  - split.
    + vm_compute. discriminate.
    + apply (bool_decide_unpack _). vm_compute. exact I.
  - vm_compute. reflexivity.
Defined.

(** ** Users: update and delete *)

Section UserRoutes.
Context `{Bcrypt}.

Lemma get_user_by_id_some (db : Store) (i : Z) (u : User.t) :
  crud.get_user_by_id db i = Some u -> In u (users db) /\ User.id u = i.
Proof.
  unfold crud.get_user_by_id, first. intros Hf.
  apply find_some in Hf as [Hin Hid]. split; [exact Hin|].
  apply Z.eqb_eq, Hid.
Qed.

Lemma get_user_by_id_none (db : Store) (i : Z) :
  crud.get_user_by_id db i = None <->
  (forall u, In u (users db) -> User.id u <> i).
Proof.
  unfold crud.get_user_by_id, first. split.
  - intros Hf u Hin. apply Z.eqb_neq. exact (find_none _ _ Hf u Hin).
  - intros Hall. destruct (find _ _) as [u|] eqn:Hf; [|reflexivity].
    apply find_some in Hf as [Hin Heq]. apply Z.eqb_eq in Heq.
    destruct (Hall u Hin Heq).
Qed.

Lemma self_or_admin_check (user_id : Z) (caller : User.t) :
  negb (User.id caller =? user_id)%Z
  && negb (role_eqb (User.role caller) ADMIN) = false
  <-> (User.id caller = user_id \/ User.role caller = ADMIN).
Proof.
  destruct (Z.eqb_spec (User.id caller) user_id);
    destruct (User.role caller); simpl; intuition congruence.
Qed.

Lemma find_id_after_filter (rows : list User.t) (i : Z) :
  find (fun r => (User.id r =? i)%Z)
       (List.filter (fun r => negb (User.id r =? i)%Z) rows) = None.
Proof.
  induction rows as [|r rows IH]; simpl; [reflexivity|].
  destruct (User.id r =? i)%Z eqn:E; simpl; [exact IH|].
  rewrite E. exact IH.
Qed.

Lemma owns_advertisement_check (db : Store) (pk : Z) :
  existsb (fun a => (Advertisement.owner_id a =? pk)%Z) (advertisements db)
  = false
  <-> (forall a, In a (advertisements db) -> Advertisement.owner_id a <> pk).
Proof.
  split.
  - intros Hno a Hin Heq.
    assert (existsb (fun a => (Advertisement.owner_id a =? pk)%Z)
                    (advertisements db) = true)
      by (apply existsb_exists; exists a; split; [exact Hin|apply Z.eqb_eq, Heq]).
    congruence.
  - intros Hall. destruct (existsb _ _) eqn:E; [|reflexivity].
    apply existsb_exists in E as [a [Hin Heq]]. apply Z.eqb_eq in Heq.
    destruct (Hall a Hin Heq).
Qed.

(** X5. DELETE /user/{id}. A caller who is neither the target nor an
    admin gets 403 whether or not the target exists; otherwise a missing
    target gives 404. A stored target who owns no advertisement is
    removed, with every other row left in place; one who owns an
    advertisement is not removed: the commit raises [IntegrityError] and
    the store stays as it was. *)
Theorem delete_user_route (db : Store) (user_id : Z) (current_user : User.t) :
  (~ (User.id current_user = user_id \/ User.role current_user = ADMIN) ->
   main.delete_user db user_id current_user
   = (Raise (HTTPException 403 "Not enough permissions to delete this user"),
      db))
  /\ ((User.id current_user = user_id \/ User.role current_user = ADMIN) ->
      (crud.get_user_by_id db user_id = None ->
       main.delete_user db user_id current_user
       = (Raise (HTTPException 404 "User not found"), db))
      /\ (forall u, crud.get_user_by_id db user_id = Some u ->
            ((exists a, In a (advertisements db)
                        /\ Advertisement.owner_id a = user_id) ->
             main.delete_user db user_id current_user
             = (Raise IntegrityError, db))
            /\ ((forall a, In a (advertisements db) ->
                           Advertisement.owner_id a <> user_id) ->
                main.delete_user db user_id current_user
                = (Return "User deleted successfully"%string,
                   mkStore (List.filter (fun r => negb (User.id r =? user_id)%Z)
                                        (users db))
                           (advertisements db))
                /\ crud.get_user_by_id
                     (mkStore (List.filter
                                 (fun r => negb (User.id r =? user_id)%Z)
                                 (users db))
                              (advertisements db)) user_id = None))).
Proof.
  split.
  - intros Hno. unfold main.delete_user.
    destruct (negb _ && negb _) eqn:E; [reflexivity|].
    apply self_or_admin_check in E. contradiction.
  - intros Hok. apply self_or_admin_check in Hok.
    unfold main.delete_user. rewrite Hok. unfold crud.delete_user. split.
    + intros ->. reflexivity.
    + intros u Hu. rewrite Hu.
      pose proof (get_user_by_id_some _ _ _ Hu) as [_ ->].
      unfold delete_user_row. split.
      * intros [a [Hin Hown]].
        destruct (existsb _ (advertisements db)) eqn:E; [reflexivity|].
        destruct (proj1 (owns_advertisement_check db user_id) E a Hin Hown).
      * intros Hnone. apply owns_advertisement_check in Hnone.
        rewrite Hnone. split; [reflexivity|].
        unfold crud.get_user_by_id, first. simpl. apply find_id_after_filter.
Qed.

Lemma set_user_columns_identity (pending : list (user_field * option str))
    (r : User.t) :
  same_identity r (set_user_columns r pending).
Proof.
  unfold same_identity.
  revert r. induction pending as [|[f [v|]] pending IH]; intros r; simpl.
  - repeat split.
  - destruct (IH (set_user_column r f v)) as (E1 & E2 & E3).
    rewrite E1, E2, E3. destruct f; repeat split.
  - apply IH.
Qed.

Lemma find_id_after_update (rows : list User.t) (pk : Z) (u : User.t)
    (pending : list (user_field * option str)) :
  find (fun r => (User.id r =? pk)%Z) rows = Some u ->
  find (fun r => (User.id r =? pk)%Z)
       (List.map (fun r => if (User.id r =? pk)%Z
                           then set_user_columns r pending else r) rows)
  = Some (set_user_columns u pending).
Proof.
  induction rows as [|r rows IH]; simpl; [discriminate|].
  destruct (User.id r =? pk)%Z eqn:E.
  - intros [= ->]. simpl.
    rewrite (proj1 (set_user_columns_identity pending u)), E. reflexivity.
  - intros Hf. simpl. rewrite E. apply IH, Hf.
Qed.

(** What [crud.update_user] does for a stored user, by the dictionary it
    builds. *)
Lemma update_user_cases (salt : bytes) (db : Store) (user_id : Z)
    (user_update : UserUpdate.t) (u : User.t) :
  crud.get_user_by_id db user_id = Some u ->
  (exists e, crud.update_user salt db user_id user_update = (Raise e, db)
             /\ forall code detail, e <> HTTPException code detail)
  \/ (exists pending,
        crud.hash_supplied_password salt
          (UserUpdate.model_dump_exclude_unset user_update) = Return pending
        /\ existsb (user_assignment_refused db user_id) pending = false
        /\ crud.update_user salt db user_id user_update
           = (Return (Some (set_user_columns u pending)),
              mkStore (List.map (fun r => if (User.id r =? user_id)%Z
                                          then set_user_columns r pending
                                          else r) (users db))
                      (advertisements db))).
Proof.
  intros Hu. pose proof (get_user_by_id_some _ _ _ Hu) as [_ Hid].
  unfold crud.update_user. rewrite Hu, Hid.
  destruct (crud.hash_supplied_password salt _) as [pending|e] eqn:Hh.
  - unfold update_user_row.
    destruct (existsb (user_assignment_refused db user_id) pending) eqn:Href.
    + left. exists IntegrityError. split; [reflexivity|discriminate].
    + right. exists pending. split; [reflexivity|]. split; [exact Href|].
      unfold crud.get_user_by_id at 1, first. simpl.
      rewrite (find_id_after_update _ _ u pending Hu). reflexivity.
  - left. exists e. split; [reflexivity|].
    unfold crud.hash_supplied_password in Hh.
    destruct (crud.dict_in _ _); [|discriminate].
    destruct (crud.dict_pop _ _) as [[[p|] rest]|]; try (injection Hh as <-; discriminate).
    unfold auth.get_password_hash, auth.safe_bcrypt_hash in Hh.
    destruct (Py.encode p) as [b|e1] eqn:He; simpl in Hh.
    + destruct (Py.decode _) as [h|e2] eqn:Hd; simpl in Hh; [discriminate|].
      injection Hh as <-. clear -Hd.
      assert (Hraise : forall bs e, Py.decode bs = Raise e -> e = UnicodeDecodeError).
      { clear. intros bs. remember (length bs) as n eqn:Hn.
        revert bs Hn. induction n as [n IH] using lt_wf_ind. intros bs Hn e.
        destruct bs as [|b0 r0]; simpl; [discriminate|].
        assert (Hrec : forall (c : N) r, (length r < n)%nat ->
                  (cons c <$> Py.decode r) = Raise e -> e = UnicodeDecodeError).
        { intros c r Hlt Hr. destruct (Py.decode r) as [x|e'] eqn:Hx;
            simpl in Hr; [discriminate|]. injection Hr as <-.
            eapply (IH (length r)); eauto. }
        subst n. simpl in Hrec.
        destruct (b0 <? 128)%N; [apply Hrec; lia|].
        destruct r0 as [|b1 r1]; [intros [= <-]; reflexivity|].
        destruct (decode2 b0 b1); [apply Hrec; simpl; lia|].
        destruct r1 as [|b2 r2]; [intros [= <-]; reflexivity|].
        destruct (decode3 b0 b1 b2); [apply Hrec; simpl; lia|].
        destruct r2 as [|b3 r3]; [intros [= <-]; reflexivity|].
        destruct (decode4 b0 b1 b2 b3); [apply Hrec; simpl; lia|].
        intros [= <-]; reflexivity. }
      rewrite (Hraise _ _ Hd). discriminate.
    + injection Hh as <-.
      assert (Hraise : forall s e, Py.encode s = Raise e -> e = UnicodeEncodeError).
      { clear. induction s as [|c s IH]; intros e; simpl; [discriminate|].
        destruct (encode_char c) as [b|e1] eqn:Hc; simpl.
        - destruct (Py.encode s) as [bs|e2]; simpl; [discriminate|].
          intros [= <-]. apply IH. reflexivity.
        - intros [= <-]. unfold encode_char in Hc.
          repeat match type of Hc with
                 | (if ?b then _ else _) = _ => destruct b
                 end; congruence. }
      rewrite (Hraise _ _ He). discriminate.
Qed.

(** X6. PATCH /user/{id}. A caller who is neither the target nor an
    admin gets 403, with the store as it was, whether or not the target
    exists; otherwise a missing target gives 404. For a stored target the
    answer is never a 403 or 404: the handler returns the updated record,
    or an exception of the update goes on to the server with the store as
    it was. *)
Theorem update_user_route (salt : bytes) (db : Store) (user_id : Z)
    (user_update : UserUpdate.t) (current_user : User.t) :
  (~ (User.id current_user = user_id \/ User.role current_user = ADMIN) ->
   main.update_user salt db user_id user_update current_user
   = (Raise (HTTPException 403 "Not enough permissions to update this user"),
      db))
  /\ ((User.id current_user = user_id \/ User.role current_user = ADMIN) ->
      (crud.get_user_by_id db user_id = None ->
       main.update_user salt db user_id user_update current_user
       = (Raise (HTTPException 404 "User not found"), db))
      /\ (forall u, crud.get_user_by_id db user_id = Some u ->
            (exists e,
               main.update_user salt db user_id user_update current_user
               = (Raise e, db)
               /\ forall code detail, e <> HTTPException code detail)
            \/ (exists u' db',
                  main.update_user salt db user_id user_update current_user
                  = (Return (UserResponse.from_attributes u'), db')
                  /\ crud.get_user_by_id db' user_id = Some u'
                  /\ same_identity u u'))).
Proof.
  split.
  - intros Hno. unfold main.update_user.
    destruct (negb _ && negb _) eqn:E; [reflexivity|].
    apply self_or_admin_check in E. contradiction.
  - intros Hok. apply self_or_admin_check in Hok.
    unfold main.update_user. rewrite Hok. split.
    + intros Hnone. unfold crud.update_user. rewrite Hnone. reflexivity.
    + intros u Hu.
      destruct (update_user_cases salt db user_id user_update u Hu)
        as [[e [-> He]]|[pending (_ & _ & ->)]].
      * left. exists e. split; [reflexivity|exact He].
      * right. eexists _, _. split; [reflexivity|]. split.
        -- unfold crud.get_user_by_id, first. simpl.
           apply find_id_after_update. exact Hu.
        -- apply set_user_columns_identity.
Qed.

End UserRoutes.

Example carol_may_not_delete_missing_user :
  main.delete_user db0 99 carol
  = (Raise (HTTPException 403 "Not enough permissions to delete this user"),
     db0).
Proof. vm_compute. reflexivity. Qed.

Example admin_deletes_missing_user :
  main.delete_user db0 99 bob
  = (Raise (HTTPException 404 "User not found"), db0).
Proof. vm_compute. reflexivity. Qed.

Example alice_owns_advertisements :
  main.delete_user db0 1 alice = (Raise IntegrityError, db0).
Proof. vm_compute. reflexivity. Qed.

Example bob_deletes_himself :
  main.delete_user db0 2 bob
  = (Return "User deleted successfully"%string,
     mkStore [alice; carol] (advertisements db0)).
Proof. vm_compute. reflexivity. Qed.

(** ** Passwords and accounts over time *)

Section AccountLifecycle.
Context `{BcryptSpec} `{Jose} `{Env}.

Lemma find_map_invariant {A} (p : A -> bool) (g : A -> A) (l : list A) :
  (forall r, p (g r) = p r) -> find p (List.map g l) = g <$> find p l.
Proof.
  intros Hp. induction l as [|r l IH]; simpl; [reflexivity|].
  rewrite Hp. destruct (p r); [reflexivity|exact IH].
Qed.

(** X7. A stored user who changes the password through [update_user] can
    then authenticate with the new password: the row keeps its name and
    e-mail, holds the hash of the new password, and [authenticate_user]
    with that name and the new password returns the updated row. *)
Theorem password_change_then_authenticate (salt : bytes) (db : Store)
    (user_id : Z) (u : User.t) (password : str) :
  crud.get_user_by_id db user_id = Some u ->
  crud.get_user_by_username db (User.username u) = Some u ->
  wf_str password ->
  exists u' db',
    crud.update_user salt db user_id
      (UserUpdate.mk None None (Some (Some password)))
    = (Return (Some u'), db')
    /\ User.username u' = User.username u
    /\ User.email u' = User.email u
    /\ same_identity u u'
    /\ auth.verify_password password (User.hashed_password u') = Return true
    /\ crud.authenticate_user db' (User.username u) password
       = Return (Some u').
Proof.
  intros Hid Hname Hpw.
  pose proof (get_user_by_id_some _ _ _ Hid) as [_ Hpk]. subst user_id.
  destruct (encode_total _ Hpw) as [b Hb].
  set (h := hashpw (auth.truncate72 b) salt).
  set (g := fun r : User.t =>
              if (User.id r =? (User.id u))%Z
              then set_user_columns r [(f_hashed_password, Some h)] else r).
  assert (Hverify : auth.verify_password password h = Return true).
  { unfold h. rewrite (verify_password_hashed _ _ _ _ Hb).
    rewrite checkpw_hashpw by apply truncate72_length. reflexivity. }
  assert (Hupd : crud.update_user salt db (User.id u)
                   (UserUpdate.mk None None (Some (Some password)))
                 = (Return (Some (set_user_columns u
                                    [(f_hashed_password, Some h)])),
                    mkStore (List.map g (users db)) (advertisements db))).
  { assert (Hdict : crud.hash_supplied_password salt
                      (UserUpdate.model_dump_exclude_unset
                         (UserUpdate.mk None None (Some (Some password))))
                    = Return [(f_hashed_password, Some h)]).
    { change (crud.hash_supplied_password salt
                (UserUpdate.model_dump_exclude_unset
                   (UserUpdate.mk None None (Some (Some password)))))
        with (hashed ← auth.get_password_hash salt password;
              Return (crud.dict_set f_hashed_password (Some hashed) [])).
      rewrite (get_password_hash_encoded salt _ _ Hb). reflexivity. }
    assert (Hrow : update_user_row (User.id u) [(f_hashed_password, Some h)] db
                   = (Return tt,
                      mkStore (List.map g (users db)) (advertisements db)))
      by reflexivity.
    assert (Hfind : crud.get_user_by_id
                      (mkStore (List.map g (users db)) (advertisements db))
                      (User.id u)
                    = Some (set_user_columns u [(f_hashed_password, Some h)]))
      by (apply find_id_after_update; exact Hid).
    unfold crud.update_user. rewrite Hid, Hdict, Hrow, Hfind.
    reflexivity. }
  eexists _, _. split; [exact Hupd|]. simpl.
  split; [reflexivity|]. split; [reflexivity|].
  split; [repeat split|]. split; [exact Hverify|].
  unfold crud.authenticate_user, crud.get_user_by_username, first. simpl.
  rewrite (find_map_invariant _ g).
  - unfold crud.get_user_by_username, first in Hname. rewrite Hname. simpl.
    unfold g. rewrite Z.eqb_refl. simpl.
    rewrite Hverify. reflexivity.
  - intros r. unfold g. destruct (User.id r =? (User.id u))%Z; reflexivity.
Qed.

(** X8. An update of a stored user that supplies [password] as null
    raises [AttributeError], whatever else it supplies, and changes
    nothing; PATCH /user/{id} passes the exception on for the user and
    for an admin. *)
Theorem null_password_raises (salt : bytes) (db : Store) (user_id : Z)
    (u : User.t) (username email : option (option str)) :
  crud.get_user_by_id db user_id = Some u ->
  crud.update_user salt db user_id (UserUpdate.mk username email (Some None))
  = (Raise AttributeError, db)
  /\ (forall current_user,
        User.id current_user = user_id \/ User.role current_user = ADMIN ->
        main.update_user salt db user_id
          (UserUpdate.mk username email (Some None)) current_user
        = (Raise AttributeError, db)).
Proof.
  intros Hid.
  assert (Hcrud : crud.update_user salt db user_id
                    (UserUpdate.mk username email (Some None))
                  = (Raise AttributeError, db)).
  { unfold crud.update_user. rewrite Hid.
    destruct username as [x|], email as [y|]; reflexivity. }
  split; [exact Hcrud|].
  intros current_user Hok. apply self_or_admin_check in Hok.
  unfold main.update_user. rewrite Hok, Hcrud. reflexivity.
Qed.

Lemma NoDup_map_inj_in {A B} (f : A -> B) (l : list A) (x y : A) :
  NoDup (List.map f l) -> In x l -> In y l -> f x = f y -> x = y.
Proof.
  induction l as [|a l IH]; simpl; [contradiction|].
  intros Hnd Hx Hy Hf. apply NoDup_cons in Hnd as [Hnotin Hnd].
  rewrite list_elem_of_In in Hnotin.
  destruct Hx as [->|Hx], Hy as [->|Hy]; [reflexivity| | |auto].
  - destruct Hnotin. rewrite Hf. apply in_map, Hy.
  - destruct Hnotin. rewrite <- Hf. apply in_map, Hx.
Qed.

(** X9. Once a user is deleted, the name no longer opens the service:
    with unique usernames, after a successful [delete_user] no stored
    user has the name, a login under it gets 401 whatever the password,
    and a bearer token whose [sub] is the name, still valid, resolves no
    identity. *)
Theorem deleted_user_is_locked_out (db db' : Store) (user_id : Z) (u : User.t) :
  NoDup (List.map User.username (users db)) ->
  crud.get_user_by_id db user_id = Some u ->
  crud.delete_user db user_id = (Return true, db') ->
  crud.get_user_by_username db' (User.username u) = None
  /\ (forall now password,
        main.login now db' (LoginRequest.mk (User.username u) password)
        = Raise (HTTPException 401 "Incorrect username or password"))
  /\ (forall now h scheme token (payload : claims),
        Py.split h = [scheme; token] ->
        auth.verify_token now token = Return (Some payload) ->
        payload !! auth.k_sub = Some (CStr (User.username u)) ->
        main.get_current_user now db' (Some h) = Return None).
Proof.
  intros Hnd Hid Hdel.
  pose proof (get_user_by_id_some _ _ _ Hid) as [Hin Hpk].
  assert (Hdb' : users db'
                 = List.filter (fun r => negb (User.id r =? user_id)%Z)
                               (users db)).
  { unfold crud.delete_user in Hdel. rewrite Hid, Hpk in Hdel.
    unfold delete_user_row in Hdel.
    destruct (existsb _ (advertisements db)); [discriminate|].
    injection Hdel as <-. reflexivity. }
  assert (Hgone : forall v, In v (users db') ->
                            User.username v <> User.username u).
  { intros v Hv Heq. rewrite Hdb' in Hv. apply filter_In in Hv as [Hv Hne].
    apply negb_true_iff, Z.eqb_neq in Hne.
    apply (NoDup_map_inj_in User.username _ v u Hnd Hv Hin) in Heq.
    subst v. contradiction. }
  assert (Hnone : crud.get_user_by_username db' (User.username u) = None)
    by (apply get_user_by_username_none; exact Hgone).
  split; [exact Hnone|]. split.
  - intros now password. unfold main.login, crud.authenticate_user. simpl.
    rewrite Hnone. reflexivity.
  - intros now h scheme token payload Hsplit Hv Hsub.
    apply no_identity_gives_none.
    eapply user_unknown; eauto.
Qed.

End AccountLifecycle.

Lemma password_change_then_authenticate_witness :
  exists u' db',
    @crud.update_user Toy.bcrypt [] db0 3
      (UserUpdate.mk None None (Some (Some (lit "new-pw"))))
    = (Return (Some u'), db')
    /\ @crud.authenticate_user Toy.bcrypt db' (lit "carol") (lit "new-pw")
       = Return (Some u').
Proof.
  destruct (@password_change_then_authenticate Toy.bcrypt toy_bcrypt_spec
              [] db0 3%Z carol (lit "new-pw") eq_refl eq_refl)
    as (u' & db' & Hupd & _ & _ & _ & _ & Hauth).
  - unfold wf_str. repeat constructor.
  - exists u', db'. split; [exact Hupd|exact Hauth].
Defined.

Lemma null_password_raises_witness :
  @crud.update_user Toy.bcrypt [] db0 3
    (UserUpdate.mk None (Some (Some (lit "c@example.org"))) (Some None))
  = (Raise AttributeError, db0).
Proof.
  apply (@null_password_raises Toy.bcrypt [] db0 3%Z carol None
           (Some (Some (lit "c@example.org"))) eq_refl).
Defined.

Lemma db0_usernames : NoDup (List.map User.username (users db0)).
Proof.
  apply (bool_decide_unpack _). vm_compute. exact I.
Defined.

Lemma deleted_user_is_locked_out_witness :
  @crud.get_user_by_username
    (mkStore [alice; carol] (advertisements db0)) (lit "bob") = None
  /\ @main.login Toy.bcrypt Toy.jose Toy.env t0
       (mkStore [alice; carol] (advertisements db0))
       (LoginRequest.mk (lit "bob") (lit "bob-pw"))
     = Raise (HTTPException 401 "Incorrect username or password").
Proof.
  destruct (@deleted_user_is_locked_out Toy.bcrypt Toy.jose Toy.env db0
              (mkStore [alice; carol] (advertisements db0)) 2%Z bob
              db0_usernames eq_refl eq_refl) as (Hnone & Hlogin & _).
  split; [exact Hnone|apply Hlogin].
Defined.

(** ** The constraints of the store are kept *)

Section Constraints.
Context `{Bcrypt}.

Lemma existsb_false_forall {A} (p : A -> bool) (l : list A) :
  existsb p l = false -> forall x, In x l -> p x = false.
Proof.
  intros Hno x Hin. destruct (p x) eqn:E; [|reflexivity].
  assert (existsb p l = true) by (apply existsb_exists; eauto). congruence.
Qed.

Lemma NoDup_map_snoc {A B} (f : A -> B) (l : list A) (x : A) :
  NoDup (List.map f l) -> (forall y, In y l -> f y <> f x) ->
  NoDup (List.map f (l ++ [x])).
Proof.
  intros Hnd Hfresh. induction l as [|a l IH]; simpl.
  - apply NoDup_cons. split; [apply not_elem_of_nil|apply NoDup_nil_2].
  - simpl in Hnd. apply NoDup_cons in Hnd as [Hnotin Hnd].
    apply NoDup_cons. split.
    + rewrite list_elem_of_In in *. rewrite map_app, in_app_iff. simpl.
      intros [Hin|[Heq|[]]]; [contradiction|].
      apply (Hfresh a); [left; reflexivity|congruence].
    + apply IH; [exact Hnd|]. intros y Hy. apply Hfresh. right. exact Hy.
Qed.

Lemma NoDup_map_filter {A B} (f : A -> B) (p : A -> bool) (l : list A) :
  NoDup (List.map f l) -> NoDup (List.map f (List.filter p l)).
Proof.
  induction l as [|a l IH]; simpl; [auto|].
  intros Hnd. apply NoDup_cons in Hnd as [Hnotin Hnd].
  destruct (p a); simpl; [|apply IH, Hnd].
  apply NoDup_cons. split; [|apply IH, Hnd].
  rewrite list_elem_of_In in *. intros Hin. apply Hnotin.
  apply in_map_iff in Hin as [y [Hy Hin]]. apply filter_In in Hin as [Hin _].
  rewrite <- Hy. apply in_map, Hin.
Qed.

(** Rewriting the row with key [pk] keeps a column unique when the new
    value of the column is not the value of a row with another key. *)
Lemma NoDup_map_update {A B} (key : A -> Z) (f : A -> B) (g : A -> A)
    (pk : Z) (l : list A) :
  NoDup (List.map key l) -> NoDup (List.map f l) ->
  (forall r u, In r l -> In u l -> key r = pk -> key u <> pk ->
               f (g r) <> f u) ->
  NoDup (List.map f (List.map (fun r => if (key r =? pk)%Z then g r else r) l)).
Proof.
  intros Hk Hf Hg. induction l as [|a l IH]; simpl; [apply NoDup_nil_2|].
  simpl in Hk, Hf.
  apply NoDup_cons in Hk as [Hka Hk]. apply NoDup_cons in Hf as [Hfa Hf].
  rewrite list_elem_of_In in Hka. rewrite list_elem_of_In in Hfa.
  apply NoDup_cons. split.
  - rewrite list_elem_of_In. intros Hin.
    apply in_map_iff in Hin as [y [Hy Hin]].
    apply in_map_iff in Hin as [u [<- Hu]].
    destruct (Z.eqb_spec (key a) pk) as [Ha|Ha];
      destruct (Z.eqb_spec (key u) pk) as [Hu'|Hu'].
    + apply Hka. rewrite Ha, <- Hu'. apply in_map, Hu.
    + apply (Hg a u); [left; reflexivity|right; exact Hu|exact Ha|exact Hu'|].
      congruence.
    + apply (Hg u a); [right; exact Hu|left; reflexivity|exact Hu'|exact Ha|].
      congruence.
    + apply Hfa. rewrite <- Hy. apply in_map, Hu.
  - apply IH; [exact Hk|exact Hf|].
    intros r u Hr Hu. apply Hg; right; assumption.
Qed.

Lemma set_user_columns_username (pending : list (user_field * option str))
    (r : User.t) :
  User.username (set_user_columns r pending) = User.username r
  \/ exists v, In (f_username, Some v) pending
               /\ User.username (set_user_columns r pending) = v.
Proof.
  revert r. induction pending as [|[f [v|]] pending IH]; intros r; simpl.
  - left. reflexivity.
  - destruct (IH (set_user_column r f v)) as [Heq|[v' [Hin Heq]]].
    + rewrite Heq. destruct f; simpl; eauto.
    + right. exists v'. split; [right; exact Hin|exact Heq].
  - destruct (IH r) as [Heq|[v' [Hin Heq]]]; [left; exact Heq|].
    right. exists v'. split; [right; exact Hin|exact Heq].
Qed.

Lemma set_user_columns_email (pending : list (user_field * option str))
    (r : User.t) :
  User.email (set_user_columns r pending) = User.email r
  \/ exists v, In (f_email, Some v) pending
               /\ User.email (set_user_columns r pending) = v.
Proof.
  revert r. induction pending as [|[f [v|]] pending IH]; intros r; simpl.
  - left. reflexivity.
  - destruct (IH (set_user_column r f v)) as [Heq|[v' [Hin Heq]]].
    + rewrite Heq. destruct f; simpl; eauto.
    + right. exists v'. split; [right; exact Hin|exact Heq].
  - destruct (IH r) as [Heq|[v' [Hin Heq]]]; [left; exact Heq|].
    right. exists v'. split; [right; exact Hin|exact Heq].
Qed.

Lemma insert_user_keeps (now : Z) (name mail hashed : str) (r : UserRole)
    (db : Store) :
  store_ok db -> store_ok (snd (insert_user now name mail hashed r db)).
Proof.
  intros Hok. unfold insert_user.
  destruct (existsb _ (users db)) eqn:E; [exact Hok|].
  pose proof (existsb_false_forall _ _ E) as Hfree. simpl in Hfree.
  destruct Hok as (Hid & Hname & Hmail & Hads & Hown).
  unfold store_ok. simpl. repeat split.
  - apply NoDup_map_snoc; [exact Hid|]. intros y Hy Heq. simpl in Heq.
    specialize (Hfree y Hy). apply orb_false_iff in Hfree as [Hfree _].
    apply orb_false_iff in Hfree as [Hfree _]. apply Z.eqb_neq in Hfree.
    contradiction.
  - apply NoDup_map_snoc; [exact Hname|]. intros y Hy Heq. simpl in Heq.
    specialize (Hfree y Hy). apply orb_false_iff in Hfree as [Hfree _].
    apply orb_false_iff in Hfree as [_ Hfree]. apply eqb_neq in Hfree.
    contradiction.
  - apply NoDup_map_snoc; [exact Hmail|]. intros y Hy Heq. simpl in Heq.
    specialize (Hfree y Hy). apply orb_false_iff in Hfree as [_ Hfree].
    apply eqb_neq in Hfree. contradiction.
  - exact Hads.
  - intros a Ha. destruct (Hown a Ha) as [u [Hu Heq]].
    exists u. split; [apply in_or_app; left; exact Hu|exact Heq].
Qed.

Lemma update_user_row_keeps (pk : Z) (pending : list (user_field * option str))
    (db : Store) :
  store_ok db -> store_ok (snd (update_user_row pk pending db)).
Proof.
  intros Hok. unfold update_user_row.
  destruct (existsb (user_assignment_refused db pk) pending) eqn:E;
    [exact Hok|].
  pose proof (existsb_false_forall _ _ E) as Hacc.
  destruct Hok as (Hid & Hname & Hmail & Hads & Hown).
  unfold store_ok. simpl. repeat split.
  - rewrite map_map.
    rewrite (map_ext _ User.id); [exact Hid|].
    intros r. destruct (User.id r =? pk)%Z; [|reflexivity].
    apply set_user_columns_identity.
  - apply (NoDup_map_update User.id User.username
             (fun r => set_user_columns r pending)); [exact Hid|exact Hname|].
    intros r u Hr Hu Hkr Hku Heq.
    destruct (set_user_columns_username pending r) as [Hsame|[v [Hin Hv]]].
    + rewrite Hsame in Heq.
      apply (NoDup_map_inj_in User.username _ r u Hname Hr Hu) in Heq.
      subst u. contradiction.
    + specialize (Hacc _ Hin). simpl in Hacc.
      pose proof (existsb_false_forall _ _ Hacc u Hu) as Hu'. simpl in Hu'.
      apply andb_false_iff in Hu' as [Hu'|Hu'].
      * apply negb_false_iff, Z.eqb_eq in Hu'. contradiction.
      * apply eqb_neq in Hu'. congruence.
  - apply (NoDup_map_update User.id User.email
             (fun r => set_user_columns r pending)); [exact Hid|exact Hmail|].
    intros r u Hr Hu Hkr Hku Heq.
    destruct (set_user_columns_email pending r) as [Hsame|[v [Hin Hv]]].
    + rewrite Hsame in Heq.
      apply (NoDup_map_inj_in User.email _ r u Hmail Hr Hu) in Heq.
      subst u. contradiction.
    + specialize (Hacc _ Hin). simpl in Hacc.
      pose proof (existsb_false_forall _ _ Hacc u Hu) as Hu'. simpl in Hu'.
      apply andb_false_iff in Hu' as [Hu'|Hu'].
      * apply negb_false_iff, Z.eqb_eq in Hu'. contradiction.
      * apply eqb_neq in Hu'. congruence.
  - exact Hads.
  - intros a Ha. destruct (Hown a Ha) as [u [Hu Heq]].
    exists (if (User.id u =? pk)%Z then set_user_columns u pending else u).
    split.
    + apply (in_map (fun r => if (User.id r =? pk)%Z
                              then set_user_columns r pending else r)), Hu.
    + rewrite <- Heq. destruct (User.id u =? pk)%Z; [|reflexivity].
      apply set_user_columns_identity.
Qed.

Lemma delete_user_row_keeps (pk : Z) (db : Store) :
  store_ok db -> store_ok (snd (delete_user_row pk db)).
Proof.
  intros Hok. unfold delete_user_row.
  destruct (existsb _ (advertisements db)) eqn:E; [exact Hok|].
  pose proof (existsb_false_forall _ _ E) as Hnone. simpl in Hnone.
  destruct Hok as (Hid & Hname & Hmail & Hads & Hown).
  unfold store_ok. simpl. repeat split;
    try (apply NoDup_map_filter; assumption); [exact Hads|].
  intros a Ha. destruct (Hown a Ha) as [u [Hu Heq]].
  exists u. split; [|exact Heq]. apply filter_In. split; [exact Hu|].
  apply negb_true_iff. rewrite Heq. apply Hnone, Ha.
Qed.

(** The INSERT of an advertisement stores the row, whoever its owner
    is: the id the store gives it is not taken. *)
Lemma insert_ad_stores (now : Z) (title description : str) (price : float)
    (owner_id : Z) (db : Store) :
  let row := Advertisement.mk
               (next_id (List.map Advertisement.id (advertisements db)))
               title description price now owner_id in
  insert_ad now title description price owner_id db
  = (Return row, mkStore (users db) (advertisements db ++ [row])).
Proof.
  intros row. unfold insert_ad. fold row.
  destruct (existsb _ (advertisements db)) eqn:E; [|reflexivity].
  apply existsb_exists in E as [a [Ha Hid]]. apply Z.eqb_eq in Hid.
  destruct (next_id_fresh (List.map Advertisement.id (advertisements db))).
  change (next_id (List.map Advertisement.id (advertisements db)))
    with (Advertisement.id row).
  rewrite <- Hid. apply in_map, Ha.
Qed.

(** The constraints hold after the INSERT exactly when the owner is a
    stored user. *)
Lemma insert_ad_keeps (now : Z) (title description : str) (price : float)
    (owner_id : Z) (db : Store) :
  store_ok db ->
  store_ok (snd (insert_ad now title description price owner_id db))
  <-> exists u, In u (users db) /\ User.id u = owner_id.
Proof.
  intros Hok. rewrite insert_ad_stores. cbn [snd].
  destruct Hok as (Hid & Hname & Hmail & Hads & Hown).
  split.
  - intros (_ & _ & _ & _ & Hown').
    destruct (Hown' (Advertisement.mk
                       (next_id (List.map Advertisement.id (advertisements db)))
                       title description price now owner_id))
      as [u [Hu Heq]]; [simpl; apply in_or_app; right; left; reflexivity|].
    exists u. split; [exact Hu|exact Heq].
  - intros [o [Ho Hoid]].
    unfold store_ok. simpl. repeat split; try assumption.
    + apply NoDup_map_snoc; [exact Hads|]. intros y Hy Heq. simpl in Heq.
      apply (next_id_fresh (List.map Advertisement.id (advertisements db))).
      rewrite <- Heq. apply in_map, Hy.
    + intros a Ha. apply in_app_or in Ha as [Ha|[<-|[]]]; [apply Hown, Ha|].
      exists o. split; [exact Ho|exact Hoid].
Qed.

Lemma set_ad_columns_ownership (pending : list ad_entry) (r : Advertisement.t) :
  same_ownership r (set_ad_columns r pending).
Proof.
  unfold same_ownership, set_ad_columns. revert r.
  induction pending as [|a pending IH]; intros r; simpl; [auto|].
  destruct (IH (set_ad_column r a)) as (E1 & E2 & E3).
  rewrite E1, E2, E3. destruct a as [[v|]|[v|]|[v|]]; simpl; auto.
Qed.

Lemma update_ad_row_keeps (pk : Z) (pending : list ad_entry) (db : Store) :
  store_ok db -> store_ok (snd (update_ad_row pk pending db)).
Proof.
  intros Hok. unfold update_ad_row.
  destruct (existsb ad_assignment_refused pending); [exact Hok|].
  destruct Hok as (Hid & Hname & Hmail & Hads & Hown).
  unfold store_ok. simpl. repeat split; try assumption.
  - rewrite map_map.
    rewrite (map_ext _ Advertisement.id); [exact Hads|].
    intros r. destruct (Advertisement.id r =? pk)%Z; [|reflexivity].
    apply set_ad_columns_ownership.
  - intros a Ha. apply in_map_iff in Ha as [r [<- Hr]].
    destruct (Hown r Hr) as [u [Hu Heq]]. exists u. split; [exact Hu|].
    rewrite Heq. destruct (Advertisement.id r =? pk)%Z; [|reflexivity].
    symmetry. apply set_ad_columns_ownership.
Qed.

Lemma delete_ad_row_keeps (pk : Z) (db : Store) :
  store_ok db -> store_ok (delete_ad_row pk db).
Proof.
  intros (Hid & Hname & Hmail & Hads & Hown).
  unfold store_ok, delete_ad_row. simpl. repeat split; try assumption.
  - apply NoDup_map_filter, Hads.
  - intros a Ha. apply filter_In in Ha as [Ha _]. apply Hown, Ha.
Qed.

(** X10. The writes of the data-access layer and the constraints of the
    store. After [create_user], [update_user], [delete_user],
    [update_advertisement] and [delete_advertisement], whether they
    succeed or raise, the ids, usernames and e-mails are still unique and
    every advertisement still has a stored owner. [create_advertisement]
    stores the advertisement under any [owner_id]: the constraints hold
    afterwards exactly when that id is the one of a stored user, as it is
    when POST /advertisement passes the id of the caller. *)
Theorem writes_keep_constraints (db : Store) :
  store_ok db ->
  (forall salt now user, store_ok (snd (crud.create_user salt now db user)))
  /\ (forall salt user_id user_update,
        store_ok (snd (crud.update_user salt db user_id user_update)))
  /\ (forall user_id, store_ok (snd (crud.delete_user db user_id)))
  /\ (forall now advertisement owner_id,
        store_ok (snd (crud.create_advertisement now db advertisement
                                                 owner_id))
        <-> exists u, In u (users db) /\ User.id u = owner_id)
  /\ (forall now advertisement current_user,
        In current_user (users db) ->
        store_ok (snd (main.create_advertisement now db advertisement
                                                 current_user)))
  /\ (forall advertisement_id advertisement_update,
        store_ok (snd (crud.update_advertisement db advertisement_id
                                                 advertisement_update)))
  /\ (forall advertisement_id,
        store_ok (snd (crud.delete_advertisement db advertisement_id))).
Proof.
  intros Hok. split; [|split; [|split; [|split; [|split; [|split]]]]].
  - intros salt now user. unfold crud.create_user.
    destruct (auth.get_password_hash salt _); [|exact Hok].
    apply insert_user_keeps, Hok.
  - intros salt user_id user_update. unfold crud.update_user.
    destruct (crud.get_user_by_id db user_id) as [u|]; [|exact Hok].
    destruct (crud.hash_supplied_password salt _) as [pending|e]; [|exact Hok].
    pose proof (update_user_row_keeps (User.id u) pending db Hok) as Hkeep.
    destruct (update_user_row (User.id u) pending db) as [[x|e] db'];
      exact Hkeep.
  - intros user_id. unfold crud.delete_user.
    destruct (crud.get_user_by_id db user_id) as [u|]; [|exact Hok].
    pose proof (delete_user_row_keeps (User.id u) db Hok) as Hkeep.
    destruct (delete_user_row (User.id u) db) as [[x|e] db']; exact Hkeep.
  - intros now advertisement owner_id. apply insert_ad_keeps, Hok.
  - intros now advertisement current_user Hin.
    unfold main.create_advertisement.
    pose proof (proj2 (insert_ad_keeps now
                         (AdvertisementCreate.title advertisement)
                         (AdvertisementCreate.description advertisement)
                         (AdvertisementCreate.price advertisement)
                         (User.id current_user) db Hok)) as Hkeep.
    unfold crud.create_advertisement.
    destruct (insert_ad _ _ _ _ _ db) as [r db']. apply Hkeep.
    exists current_user. split; [exact Hin|reflexivity].
  - intros advertisement_id advertisement_update.
    unfold crud.update_advertisement.
    destruct (crud.get_advertisement db advertisement_id) as [a|]; [|exact Hok].
    pose proof (update_ad_row_keeps (Advertisement.id a)
                  (AdvertisementUpdate.model_dump_exclude_unset
                     advertisement_update) db Hok) as Hkeep.
    destruct (update_ad_row _ _ db) as [[x|e] db']; exact Hkeep.
  - intros advertisement_id. unfold crud.delete_advertisement.
    destruct (crud.get_advertisement db advertisement_id) as [a|]; [|exact Hok].
    apply delete_ad_row_keeps, Hok.
Qed.

End Constraints.

Lemma db0_ok : store_ok db0.
Proof.
  unfold store_ok. repeat split;
    try (apply (bool_decide_unpack _); vm_compute; exact I).
  intros a Ha. simpl in Ha.
  destruct Ha as [<-|[<-|[<-|[]]]];
    [exists alice|exists alice|exists carol];
    (split; [simpl; tauto|reflexivity]).
Defined.

Lemma writes_keep_constraints_witness :
  store_ok (snd (@crud.create_user Toy.bcrypt [] 400 db0 dave_request))
  /\ store_ok (snd (crud.delete_user db0 2))
  /\ store_ok (snd (@crud.update_user Toy.bcrypt [] db0 3
                      (UserUpdate.mk (Some (Some (lit "alice"))) None None))).
Proof.
  destruct (@writes_keep_constraints Toy.bcrypt db0 db0_ok)
    as (Hcreate & Hupdate & Hdelete & _).
  split; [apply Hcreate|]. split; [apply Hdelete|apply Hupdate].
Defined.

(** An advertisement for an owner who is no stored user is stored all
    the same. *)
Example orphan_advertisement_is_stored :
  crud.create_advertisement 500 db0 lamp_request 99
  = (Return (Advertisement.mk 4 (lit "Lamp") (lit "Desk lamp") 15%float 500 99),
     mkStore (users db0)
             (advertisements db0
              ++ [Advertisement.mk 4 (lit "Lamp") (lit "Desk lamp") 15%float
                                   500 99])).
Proof. reflexivity. Qed.

(** ** Round trips through the store *)

Section RoundTrips.
Context `{BcryptSpec} `{Jose} `{Env}.

Lemma find_app_first {A} (p : A -> bool) (l l' : list A) :
  find p (l ++ l') = match find p l with
                     | Some y => Some y
                     | None => find p l'
                     end.
Proof.
  induction l as [|a l IH]; simpl; [reflexivity|].
  destruct (p a); [reflexivity|exact IH].
Qed.

Lemma find_none_forall {A} (p : A -> bool) (l : list A) :
  (forall y, In y l -> p y = false) -> find p l = None.
Proof.
  intros Hall. destruct (find p l) as [y|] eqn:E; [|reflexivity].
  apply find_some in E as [Hin Hy]. rewrite (Hall y Hin) in Hy. discriminate.
Qed.

(** X11. POST /advertisement by a stored user adds one advertisement with
    the fields of the request, a fresh id, and the caller as owner, and
    changes nothing else; GET /advertisement/{id} with the new id then
    returns exactly the response of the POST, for any caller, the ids
    that existed before read as before, and the creator may change the
    new advertisement. *)
Theorem create_advertisement_then_get (now : Z) (db : Store)
    (advertisement : AdvertisementCreate.t) (current_user : User.t) :
  In current_user (users db) ->
  exists a,
    main.create_advertisement now db advertisement current_user
    = (Return (AdvertisementResponse.from_attributes a),
       mkStore (users db) (advertisements db ++ [a]))
    /\ Advertisement.title a = AdvertisementCreate.title advertisement
    /\ Advertisement.description a
       = AdvertisementCreate.description advertisement
    /\ Advertisement.price a = AdvertisementCreate.price advertisement
    /\ Advertisement.owner_id a = User.id current_user
    /\ Advertisement.created_at a = now
    /\ ~ In (Advertisement.id a) (List.map Advertisement.id (advertisements db))
    /\ may_change a current_user
    /\ (forall who,
          main.get_advertisement
            (mkStore (users db) (advertisements db ++ [a]))
            (Advertisement.id a) who
          = Return (AdvertisementResponse.from_attributes a))
    /\ (forall i, i <> Advertisement.id a ->
          crud.get_advertisement
            (mkStore (users db) (advertisements db ++ [a])) i
          = crud.get_advertisement db i).
Proof.
  intros Hcaller.
  set (new_id := next_id (List.map Advertisement.id (advertisements db))).
  assert (Hfresh : forall y, In y (advertisements db) ->
                             (Advertisement.id y =? new_id)%Z = false).
  { intros y Hy. apply Z.eqb_neq. intros Heq.
    apply (next_id_fresh (List.map Advertisement.id (advertisements db))).
    fold new_id. rewrite <- Heq. apply in_map, Hy. }
  assert (Hno : existsb (fun a => (Advertisement.id a =? new_id)%Z)
                        (advertisements db) = false).
  { destruct (existsb _ _) eqn:E; [|reflexivity].
    apply existsb_exists in E as [y [Hy Heq]].
    rewrite (Hfresh y Hy) in Heq. discriminate. }
  eexists. split.
  - unfold main.create_advertisement, crud.create_advertisement, insert_ad.
    simpl. fold new_id. rewrite Hno. simpl. reflexivity.
  - simpl. repeat split.
    + apply next_id_fresh.
    + left. reflexivity.
    + intros who. unfold main.get_advertisement, crud.get_advertisement, first.
      simpl. rewrite find_app_first, (find_none_forall _ _ Hfresh). simpl.
      fold new_id. rewrite Z.eqb_refl. reflexivity.
    + intros i Hi. unfold crud.get_advertisement, first. simpl.
      rewrite find_app_first. simpl. fold new_id.
      destruct (find _ (advertisements db)); [reflexivity|].
      destruct (Z.eqb_spec new_id i); [congruence|reflexivity].
Qed.

(** X12. After a successful POST /user the new account is usable at
    once: GET /user/{id} with the id of the response returns that same
    response, for any caller; the users stored before are found as
    before; and POST /login with the name and password of the
    registration is answered with a bearer token. *)
Theorem register_then_get_and_login (salt : bytes) (now now' : Z) (db db' : Store)
    (user : UserCreate.t) (resp : UserResponse.t) :
  main.create_user salt now db user = (Return resp, db') ->
  (forall who, main.get_user db' (UserResponse.id resp) who = Return resp)
  /\ (forall i u, crud.get_user_by_id db i = Some u ->
                  crud.get_user_by_id db' i = Some u)
  /\ (exists new,
        UserResponse.from_attributes new = resp
        /\ crud.authenticate_user db' (UserCreate.username user)
                                  (UserCreate.password user)
           = Return (Some new)
        /\ main.login now' db'
             (LoginRequest.mk (UserCreate.username user)
                              (UserCreate.password user))
           = Return (TokenResponse.mk
                       (auth.create_access_token now' (main.login_claims new)
                                                 None)
                       (lit "bearer"))).
Proof.
  intros Hcreate. unfold main.create_user in Hcreate.
  destruct (crud.get_user_by_username db (UserCreate.username user))
    as [v|] eqn:Hname; [discriminate|].
  destruct (first _ (users db)) as [v|] eqn:Hmail; [discriminate|].
  unfold crud.create_user, auth.get_password_hash, auth.safe_bcrypt_hash
    in Hcreate.
  destruct (Py.encode (UserCreate.password user)) as [b|e] eqn:Hb;
    simpl in Hcreate; [|discriminate].
  rewrite (decode_ascii _ (hashpw_ascii _ salt)) in Hcreate.
  unfold insert_user in Hcreate.
  destruct (existsb _ (users db)) eqn:Hdup; simpl in Hcreate; [discriminate|].
  injection Hcreate as <- <-.
  pose proof (existsb_false_forall _ _ Hdup) as Hfree. simpl in Hfree.
  set (new := User.mk (next_id (List.map User.id (users db)))
                      (UserCreate.username user) (UserCreate.email user)
                      (hashpw (auth.truncate72 b) salt)
                      (UserCreate.role user) now) in *.
  assert (Hid : forall y, In y (users db) ->
                          (User.id y =? User.id new)%Z = false).
  { intros y Hy. specialize (Hfree y Hy).
    apply orb_false_iff in Hfree as [Hfree _].
    apply orb_false_iff in Hfree as [Hfree _]. exact Hfree. }
  assert (Hfind : crud.get_user_by_username
                    (mkStore (users db ++ [new]) (advertisements db))
                    (UserCreate.username user) = Some new).
  { unfold crud.get_user_by_username, first in *. simpl.
    rewrite find_app_first, Hname. simpl.
    replace (Py.eqb (UserCreate.username user) (UserCreate.username user))
      with true by (symmetry; apply eqb_eq; reflexivity).
    reflexivity. }
  assert (Hauth : crud.authenticate_user
                    (mkStore (users db ++ [new]) (advertisements db))
                    (UserCreate.username user) (UserCreate.password user)
                  = Return (Some new)).
  { unfold crud.authenticate_user. rewrite Hfind. simpl.
    rewrite (verify_password_hashed _ _ _ _ Hb).
    rewrite checkpw_hashpw by apply truncate72_length. reflexivity. }
  split; [|split].
  - intros who.
    assert (Hget : crud.get_user_by_id
                     (mkStore (users db ++ [new]) (advertisements db))
                     (User.id new) = Some new).
    { unfold crud.get_user_by_id, first.
      cbn [users]. rewrite find_app_first, (find_none_forall _ _ Hid).
      cbn [find]. rewrite Z.eqb_refl. reflexivity. }
    unfold main.get_user.
    change (UserResponse.id (UserResponse.from_attributes new))
      with (User.id new).
    rewrite Hget. reflexivity.
  - intros i u Hu. unfold crud.get_user_by_id, first in *. cbn [users].
    rewrite find_app_first, Hu. reflexivity.
  - exists new. split; [reflexivity|]. split; [exact Hauth|].
    unfold main.login. simpl. rewrite Hauth. reflexivity.
Qed.

End RoundTrips.

Lemma create_advertisement_then_get_witness :
  exists a,
    main.create_advertisement 500 db0 lamp_request carol
    = (Return (AdvertisementResponse.from_attributes a),
       mkStore (users db0) (advertisements db0 ++ [a]))
    /\ Advertisement.owner_id a = 3%Z.
Proof.
  destruct (create_advertisement_then_get 500%Z db0 lamp_request carol)
    as (a & Hpost & _ & _ & _ & Howner & _).
  - simpl. tauto.
  - exists a. split; [exact Hpost|exact Howner].
Defined.

Example lamp_created :
  main.create_advertisement 500 db0 lamp_request carol
  = (Return (AdvertisementResponse.mk (lit "Lamp") (lit "Desk lamp") 15%float
                                      4 3 500),
     mkStore (users db0)
             [ad_bike; ad_sofa; ad_book;
              Advertisement.mk 4 (lit "Lamp") (lit "Desk lamp") 15%float 500 3]).
Proof. vm_compute. reflexivity. Qed.

Lemma register_then_get_and_login_witness :
  main.get_user
    (mkStore (users db0
              ++ [User.mk 4 (lit "dave") (lit "dave@example.org")
                          (lit "dave-pw") USER 400])
             (advertisements db0)) 4 None
  = Return (UserResponse.mk (lit "dave") (lit "dave@example.org") 4 USER 400).
Proof.
  apply (@register_then_get_and_login Toy.bcrypt toy_bcrypt_spec Toy.jose Toy.env
           [] 400%Z t0 db0 _ dave_request
           (UserResponse.mk (lit "dave") (lit "dave@example.org") 4 USER 400)).
  vm_compute. reflexivity.
Defined.

(** ** Search with any filter *)

Section SearchAnyFilter.

Local Open Scope N_scope.

Lemma like_percent_here (p t : str) :
  crud.like p t = true -> crud.like (0x25 :: p) t = true.
Proof.
  intros Hp. destruct t as [|c t].
  - rewrite like_percent_nil. exact Hp.
  - rewrite like_percent_cons, Hp. reflexivity.
Qed.

(** A pattern followed by [%] matches every text that starts with the
    pattern read literally: each wildcard matches the character it is. *)
Lemma like_self_prefix (x post : str) :
  crud.like (x ++ [0x25]) (x ++ post) = true.
Proof.
  induction x as [|p x IH].
  - apply like_any.
  - destruct (N.eqb_spec p 0x25) as [->|Hp].
    + change ((0x25 :: x) ++ [0x25]) with (0x25 :: (x ++ [0x25])).
      change ((0x25 :: x) ++ post) with (0x25 :: (x ++ post)).
      rewrite like_percent_cons.
      rewrite (like_percent_here _ _ IH). apply orb_true_r.
    + simpl. apply N.eqb_neq in Hp. rewrite Hp.
      unfold crud.like_char. rewrite N.eqb_refl, orb_true_r. exact IH.
Qed.

(** [contains] never misses a literal occurrence of the filter. *)
Lemma substring_contains (column other : str) :
  substringb other column = true -> crud.contains column other = true.
Proof.
  intros Hsub. apply substringb_spec in Hsub as [pre [post ->]].
  unfold crud.contains. simpl app.
  induction pre as [|c pre IH].
  - simpl app. apply like_percent_here, like_self_prefix.
  - simpl app. rewrite like_percent_cons, IH. apply orb_true_r.
Qed.

Lemma search_as_filter (db : Store) (title description : option str)
    (min_price max_price : option float) :
  crud.search_advertisements db title description min_price max_price
  = List.filter
      (fun a => like_ok title (Advertisement.title a)
                && like_ok description (Advertisement.description a)
                && min_price_ok min_price a && max_price_ok max_price a)
      (advertisements db).
Proof.
  unfold crud.search_advertisements.
  assert (Htext : forall (field : Advertisement.t -> str) (f : option str) rows,
            match f with
            | Some t => if truthy t
                        then List.filter (fun a => crud.contains (field a) t) rows
                        else rows
            | None => rows
            end = List.filter (fun a => like_ok f (field a)) rows).
  { intros field [t|] rows; simpl; [|symmetry; apply filter_all; reflexivity].
    destruct (truthy t); [reflexivity|].
    symmetry. apply filter_all. reflexivity. }
  rewrite (Htext Advertisement.title title).
  rewrite (Htext Advertisement.description description).
  rewrite (bound_stage (fun lo a => PrimFloat.leb lo (Advertisement.price a))
                       min_price).
  rewrite (bound_stage (fun hi a => PrimFloat.leb (Advertisement.price a) hi)
                       max_price).
  rewrite !filter_filter. apply filter_ext. intros a.
  unfold min_price_ok, max_price_ok. rewrite !andb_assoc. reflexivity.
Qed.

Lemma sublist_filter_bool {A} (f : A -> bool) (l : list A) :
  sublist (List.filter f l) l.
Proof.
  induction l as [|a l IH]; simpl; [constructor|].
  destruct (f a); constructor; exact IH.
Qed.

(** X13. Whatever the filters, wildcards included, a search returns
    stored advertisements only, in storage order and each at most as often
    as it is stored; every advertisement returned has its price within the
    supplied bounds; every stored advertisement whose title and
    description hold the supplied filters literally, and whose price is
    within the bounds, is returned; and the answer of GET /advertisement
    does not depend on the caller. *)
Theorem search_sound_and_complete (db : Store) (title description : option str)
    (min_price max_price : option float) :
  sublist (crud.search_advertisements db title description min_price max_price)
          (advertisements db)
  /\ (forall a,
        In a (crud.search_advertisements db title description min_price
                                         max_price) ->
        In a (advertisements db)
        /\ min_price_ok min_price a = true
        /\ max_price_ok max_price a = true)
  /\ (forall a,
        In a (advertisements db) ->
        satisfies title description min_price max_price a = true ->
        In a (crud.search_advertisements db title description min_price
                                         max_price))
  /\ (forall who who',
        main.search_advertisements db title description min_price max_price who
        = main.search_advertisements db title description min_price max_price
                                     who').
Proof.
  rewrite search_as_filter. split; [|split; [|split]].
  - apply sublist_filter_bool.
  - intros a Ha. apply filter_In in Ha as [Hin Hok].
    apply andb_true_iff in Hok as [Hok Hmax].
    apply andb_true_iff in Hok as [_ Hmin]. auto.
  - intros a Hin Hsat. apply filter_In. split; [exact Hin|].
    unfold satisfies in Hsat.
    apply andb_true_iff in Hsat as [Hsat Hmax].
    apply andb_true_iff in Hsat as [Hsat Hmin].
    apply andb_true_iff in Hsat as [Ht Hd].
    rewrite Hmin, Hmax, !andb_true_r. apply andb_true_iff. split.
    + unfold like_ok, title_ok in *. destruct title as [t|]; [|reflexivity].
      destruct (truthy t); [|reflexivity]. apply substring_contains, Ht.
    + unfold like_ok, description_ok in *.
      destruct description as [d|]; [|reflexivity].
      destruct (truthy d); [|reflexivity]. apply substring_contains, Hd.
  - reflexivity.
Qed.

End SearchAnyFilter.

(** ** What a partial update cannot change *)

Section Frames.
Context `{Bcrypt}.

Lemma Forall2_map_same {A} (P : A -> A -> Prop) (g : A -> A) (l : list A) :
  (forall x, P x (g x)) -> Forall2 P l (List.map g l).
Proof.
  intros Hg. induction l as [|a l IH]; simpl; constructor; auto.
Qed.

Lemma Forall2_same {A} (P : A -> A -> Prop) (l : list A) :
  (forall x, P x x) -> Forall2 P l l.
Proof. intros HP. induction l; constructor; auto. Qed.

(** X14. No update of a user, whatever fields it supplies and whether it
    succeeds or raises, changes the id, the role or the creation time of
    any user, any field of a user with another id, or any
    advertisement; so PATCH /user/{id} cannot make a user an admin. *)
Theorem update_user_keeps_role (salt : bytes) (db : Store) (user_id : Z)
    (user_update : UserUpdate.t) :
  (let db' := snd (crud.update_user salt db user_id user_update) in
   advertisements db' = advertisements db
   /\ Forall2 (fun old new => same_identity old new
                              /\ (User.id old <> user_id -> new = old))
              (users db) (users db'))
  /\ (forall current_user,
        let db' := snd (main.update_user salt db user_id user_update
                                         current_user) in
        advertisements db' = advertisements db
        /\ Forall2 (fun old new => same_identity old new
                                   /\ (User.id old <> user_id -> new = old))
                   (users db) (users db')).
Proof.
  assert (Hrefl : advertisements db = advertisements db
                  /\ Forall2 (fun old new => same_identity old new
                                /\ (User.id old <> user_id -> new = old))
                             (users db) (users db)).
  { split; [reflexivity|]. apply Forall2_same. intros x.
    split; [repeat split|reflexivity]. }
  assert (Hcrud : advertisements (snd (crud.update_user salt db user_id
                                                        user_update))
                  = advertisements db
                  /\ Forall2 (fun old new => same_identity old new
                                /\ (User.id old <> user_id -> new = old))
                       (users db)
                       (users (snd (crud.update_user salt db user_id
                                                     user_update)))).
  { unfold crud.update_user.
    destruct (crud.get_user_by_id db user_id) as [u|] eqn:Hu; [|exact Hrefl].
    pose proof (get_user_by_id_some _ _ _ Hu) as [_ Hpk].
    destruct (crud.hash_supplied_password salt _) as [pending|e];
      [|exact Hrefl].
    rewrite Hpk. unfold update_user_row.
    destruct (existsb _ pending); [exact Hrefl|]. simpl.
    split; [reflexivity|]. apply Forall2_map_same. intros r.
    destruct (Z.eqb_spec (User.id r) user_id).
    - split; [apply set_user_columns_identity|contradiction].
    - split; [repeat split|reflexivity]. }
  split; [exact Hcrud|].
  intros current_user. unfold main.update_user.
  destruct (negb _ && negb _); [exact Hrefl|].
  destruct (crud.update_user salt db user_id user_update) as [[[x|]|e] d];
    exact Hcrud.
Qed.

(** X15. No update of an advertisement, whatever fields it supplies and
    whether it succeeds or raises, changes the id, the owner or the
    creation time of any advertisement, any field of an advertisement
    with another id, or any user; this holds of [crud.update_advertisement]
    and of PATCH /advertisement/{id}. *)
Theorem update_advertisement_keeps_owner (db : Store) (advertisement_id : Z)
    (advertisement_update : AdvertisementUpdate.t) :
  (let db' := snd (crud.update_advertisement db advertisement_id
                                             advertisement_update) in
   users db' = users db
   /\ Forall2 (fun old new => same_ownership old new
                              /\ (Advertisement.id old <> advertisement_id ->
                                  new = old))
              (advertisements db) (advertisements db'))
  /\ (forall current_user,
        let db' := snd (main.update_advertisement db advertisement_id
                          advertisement_update current_user) in
        users db' = users db
        /\ Forall2 (fun old new => same_ownership old new
                                   /\ (Advertisement.id old <> advertisement_id ->
                                       new = old))
                   (advertisements db) (advertisements db')).
Proof.
  assert (Hrefl : users db = users db
                  /\ Forall2 (fun old new => same_ownership old new
                                /\ (Advertisement.id old <> advertisement_id ->
                                    new = old))
                             (advertisements db) (advertisements db)).
  { split; [reflexivity|]. apply Forall2_same. intros x.
    split; [repeat split|reflexivity]. }
  assert (Hcrud : users (snd (crud.update_advertisement db advertisement_id
                                advertisement_update)) = users db
                  /\ Forall2 (fun old new => same_ownership old new
                                /\ (Advertisement.id old <> advertisement_id ->
                                    new = old))
                       (advertisements db)
                       (advertisements
                          (snd (crud.update_advertisement db advertisement_id
                                  advertisement_update)))).
  { unfold crud.update_advertisement.
    destruct (crud.get_advertisement db advertisement_id) as [a|] eqn:Ha;
      [|exact Hrefl].
    pose proof (get_advertisement_some _ _ _ Ha) as [_ Hpk].
    rewrite Hpk. unfold update_ad_row.
    destruct (existsb _ _); [exact Hrefl|]. simpl.
    split; [reflexivity|]. apply Forall2_map_same. intros r.
    destruct (Z.eqb_spec (Advertisement.id r) advertisement_id).
    - split; [apply set_ad_columns_ownership|contradiction].
    - split; [repeat split|reflexivity]. }
  split; [exact Hcrud|].
  intros current_user. unfold main.update_advertisement.
  destruct (crud.get_advertisement db advertisement_id) as [a|];
    [|exact Hrefl].
  destruct (negb _ && negb _); [exact Hrefl|].
  destruct (crud.update_advertisement db advertisement_id advertisement_update)
    as [[[x|]|e] d]; exact Hcrud.
Qed.

End Frames.

Example search_wildcard_keeps_bounds :
  crud.search_advertisements db0 (Some (lit "%")) None None (Some 25%float)
  = [ad_bike; ad_book].
Proof. vm_compute. reflexivity. Qed.

(** ** The forms of the Authorization header *)

Section HeaderForms.
Context `{Jose} `{Env}.

Local Open Scope N_scope.

Lemma split_from_skip (ws s : str) :
  Forall (fun c => isspace c = true) ws ->
  Py.split_from [] (ws ++ s) = Py.split_from [] s.
Proof.
  induction 1 as [|c ws Hc _ IH]; simpl; [reflexivity|].
  rewrite Hc. exact IH.
Qed.

Lemma split_from_read (w s cur : str) :
  Forall (fun c => isspace c = false) w ->
  Py.split_from cur (w ++ s) = Py.split_from (cur ++ w) s.
Proof.
  intros Hw. revert cur. induction Hw as [|c w Hc _ IH]; intros cur; simpl.
  - rewrite app_nil_r. reflexivity.
  - rewrite Hc, IH, <- app_assoc. reflexivity.
Qed.

(** A word, then whitespace: the word is emitted. *)
Lemma split_from_word_end (w ws s : str) :
  w <> [] ->
  Forall (fun c => isspace c = false) w ->
  ws <> [] ->
  Forall (fun c => isspace c = true) ws ->
  Py.split_from [] (w ++ ws ++ s) = w :: Py.split_from [] s.
Proof.
  intros Hne Hw Hwne Hws. rewrite (split_from_read w _ [] Hw). simpl.
  destruct Hws as [|c ws Hc Hws]; [contradiction|]. simpl.
  rewrite Hc. destruct w; [contradiction|]. simpl.
  rewrite (split_from_skip ws s Hws). reflexivity.
Qed.

Lemma caseless_letters_no_space (t s : str) :
  Forall (fun l => 0x61 <= l <= 0x7A) t -> caseless t s ->
  Forall (fun c => isspace c = false) s.
Proof.
  intros Ht Hc. revert Ht. unfold caseless in Hc.
  induction Hc as [|c l s t Hcl _ IH]; intros Ht; [constructor|].
  apply Forall_cons in Ht as [Hl Ht]. constructor; [|apply IH, Ht].
  assert (Hc : 0x41 <= c <= 0x7A) by lia.
  unfold isspace.
  rewrite !(proj2 (N.leb_gt c _)) by lia.
  rewrite !(proj2 (N.eqb_neq c _)) by lia.
  rewrite (proj2 (N.leb_gt 0x2000 c)) by lia.
  rewrite !andb_false_r. reflexivity.
Qed.

(** X16. The forms of the header that identity resolution takes for the
    same request: the scheme in any mix of upper and lower case, any run
    of whitespace between scheme and token, and whitespace before and
    after, resolve exactly as [Bearer <token>] does. *)
Theorem header_forms_are_equivalent (now : Z) (db : Store)
    (lead scheme sep token trail : str) :
  caseless (lit "bearer") scheme ->
  one_word token ->
  sep <> [] ->
  Forall (fun c => isspace c = true) lead ->
  Forall (fun c => isspace c = true) sep ->
  Forall (fun c => isspace c = true) trail ->
  Py.split (lead ++ scheme ++ sep ++ token ++ trail) = [scheme; token]
  /\ main.get_current_user now db
       (Some (lead ++ scheme ++ sep ++ token ++ trail))
     = main.get_current_user now db (Some (lit "Bearer " ++ token)).
Proof.
  intros Hscheme [Htne Htoken] Hsep Hlead Hsepws Htrail.
  assert (Hletters : Forall (fun c => isspace c = false) scheme)
    by (eapply caseless_letters_no_space; [apply bearer_letters|exact Hscheme]).
  assert (Hsne : scheme <> []).
  { intros ->. inversion Hscheme. }
  assert (Hsplit : Py.split (lead ++ scheme ++ sep ++ token ++ trail)
                   = [scheme; token]).
  { unfold Py.split. rewrite (split_from_skip lead _ Hlead).
    rewrite (split_from_word_end scheme sep _ Hsne Hletters Hsep Hsepws).
    f_equal. rewrite (split_from_read token trail [] Htoken). simpl.
    destruct token as [|c token]; [contradiction|].
    clear -Htrail. destruct Htrail as [|c' trail Hc' Htrail]; simpl.
    - reflexivity.
    - rewrite Hc'. simpl.
      rewrite <- (app_nil_r trail), (split_from_skip trail [] Htrail).
      reflexivity. }
  split; [exact Hsplit|].
  unfold main.get_current_user.
  rewrite Hsplit, (split_bearer_word token (conj Htne Htoken)).
  apply scheme_check in Hscheme. rewrite Hscheme.
  replace (Py.eqb (Py.lower (lit "Bearer")) (lit "bearer")) with true
    by (vm_compute; reflexivity).
  reflexivity.
Qed.


End HeaderForms.

Lemma one_word_alice_token :
  one_word (@auth.create_access_token Toy.jose Toy.env t0 alice_claims None).
Proof.
  split.
  - vm_compute. discriminate.
  - apply (bool_decide_unpack _). vm_compute. exact I.
Defined.

Lemma header_forms_are_equivalent_witness :
  @main.get_current_user Toy.jose Toy.env (t0 + 1000000) db0
    (Some (lit " " ++ lit "BEARER" ++ [0x09; 0x20]%N
           ++ @auth.create_access_token Toy.jose Toy.env t0 alice_claims None
           ++ lit "  "))
  = @main.get_current_user Toy.jose Toy.env (t0 + 1000000) db0
      (Some (lit "Bearer "
             ++ @auth.create_access_token Toy.jose Toy.env t0 alice_claims
                  None)).
Proof.
  apply (@header_forms_are_equivalent Toy.jose Toy.env (t0 + 1000000)%Z db0
           (lit " ") (lit "BEARER") [0x09; 0x20]%N _ (lit "  ")).
  - unfold caseless. repeat constructor; right; reflexivity.
  - exact one_word_alice_token.
  - discriminate.
  - repeat constructor.
  - repeat constructor.
  - repeat constructor.
Defined.


(** ** After the deletion of an advertisement *)

Lemma find_ad_after_filter (rows : list Advertisement.t) (pk i : Z) :
  find (fun a => (Advertisement.id a =? i)%Z)
       (List.filter (fun r => negb (Advertisement.id r =? pk)%Z) rows)
  = if (i =? pk)%Z then None
    else find (fun a => (Advertisement.id a =? i)%Z) rows.
Proof.
  induction rows as [|r rows IH]; simpl.
  - destruct (i =? pk)%Z; reflexivity.
  - destruct (Z.eqb_spec (Advertisement.id r) pk) as [Hpk|Hpk]; simpl.
    + rewrite IH. destruct (Z.eqb_spec i pk) as [Hi|Hi]; [reflexivity|].
      destruct (Z.eqb_spec (Advertisement.id r) i); [congruence|reflexivity].
    + rewrite IH. destruct (Z.eqb_spec (Advertisement.id r) i) as [Hi|Hi];
        [|reflexivity].
      destruct (Z.eqb_spec i pk); [congruence|reflexivity].
Qed.

Lemma filter_swap {A} (p q : A -> bool) (l : list A) :
  List.filter p (List.filter q l) = List.filter q (List.filter p l).
Proof.
  induction l as [|x l IH]; simpl; [reflexivity|].
  destruct (p x) eqn:Hp, (q x) eqn:Hq; simpl; rewrite ?Hp, ?Hq, IH;
    reflexivity.
Qed.

(** X18. Once DELETE /advertisement/{id} has succeeded, the advertisement
    is gone for every caller: GET, PATCH and a second DELETE of that id
    answer 404 and leave the store as it is; every other advertisement
    reads as before, every search returns what it returned before without
    the deleted one, and no user row has changed. *)
Theorem deleted_advertisement_is_gone (db db' : Store) (advertisement_id : Z)
    (current_user : User.t) (msg : string) :
  main.delete_advertisement db advertisement_id current_user
  = (Return msg, db') ->
  users db' = users db
  /\ (forall caller,
        main.get_advertisement db' advertisement_id caller
        = Raise (HTTPException 404 "Advertisement not found"))
  /\ (forall caller,
        main.delete_advertisement db' advertisement_id caller
        = (Raise (HTTPException 404 "Advertisement not found"), db'))
  /\ (forall update caller,
        main.update_advertisement db' advertisement_id update caller
        = (Raise (HTTPException 404 "Advertisement not found"), db'))
  /\ (forall i caller, i <> advertisement_id ->
        main.get_advertisement db' i caller = main.get_advertisement db i caller)
  /\ (forall title description min_price max_price,
        crud.search_advertisements db' title description min_price max_price
        = List.filter
            (fun a => negb (Advertisement.id a =? advertisement_id)%Z)
            (crud.search_advertisements db title description min_price
               max_price)).
Proof.
  unfold main.delete_advertisement, crud.delete_advertisement.
  destruct (crud.get_advertisement db advertisement_id) as [ad|] eqn:Hget;
    [|discriminate].
  destruct (get_advertisement_some _ _ _ Hget) as [_ Hid].
  destruct (negb (Advertisement.owner_id ad =? User.id current_user)%Z
            && negb (role_eqb (User.role current_user) ADMIN));
    [discriminate|].
  simpl. intros Hdel. injection Hdel as _ <-.
  rewrite Hid.
  assert (Hfind : forall i,
            crud.get_advertisement (delete_ad_row advertisement_id db) i
            = if (i =? advertisement_id)%Z then None
              else crud.get_advertisement db i).
  { intros i. unfold crud.get_advertisement, first, delete_ad_row. simpl.
    apply find_ad_after_filter. }
  assert (Hgone : crud.get_advertisement
                    (delete_ad_row advertisement_id db) advertisement_id
                  = None)
    by (rewrite Hfind, Z.eqb_refl; reflexivity).
  split; [reflexivity|].
  split; [intros caller; unfold main.get_advertisement;
          rewrite Hgone; reflexivity|].
  split; [intros caller; unfold main.delete_advertisement;
          rewrite Hgone; reflexivity|].
  split; [intros update caller; unfold main.update_advertisement;
          rewrite Hgone; reflexivity|].
  split.
  - intros i caller Hi. unfold main.get_advertisement. rewrite Hfind.
    destruct (Z.eqb_spec i advertisement_id); [contradiction|reflexivity].
  - intros title description min_price max_price.
    rewrite !search_as_filter. unfold delete_ad_row. simpl.
    apply filter_swap.
Qed.

Lemma deleted_advertisement_is_gone_witness :
  main.get_advertisement
    (snd (main.delete_advertisement db0 (Advertisement.id ad_bike) alice))
    (Advertisement.id ad_bike) None
  = Raise (HTTPException 404 "Advertisement not found").
Proof.
  apply (proj1 (proj2 (deleted_advertisement_is_gone db0
                         (snd (main.delete_advertisement db0
                                 (Advertisement.id ad_bike) alice))
                         (Advertisement.id ad_bike) alice
                         "Advertisement deleted successfully"
                         eq_refl))).
Defined.
